(** * gns3converter.topology: a shallow embedding

    The module [gns3converter/topology.py] holds two classes.
    [LegacyTopology] accumulates the devices, hypervisor configuration
    blocks and artwork of a parsed legacy [.net] file; [JSONTopology]
    assembles the collections of a version 1.0 topology into one nested
    dictionary.  Both are embedded below, method by method, and the
    properties the specification states about them are settled at the end
    of the file. *)

From Stdlib Require Import Strings.Ascii.
From stdpp Require Import base option list numbers strings sorting.

#[local] Set Warnings "-register-all".

Local Open Scope Z_scope.
Local Open Scope string_scope.

(** ** Python values, exceptions and results *)

(** The values that travel through the module: [None], booleans,
    integers, strings, lists and dictionaries with string keys.  A
    dictionary keeps its entries in insertion order, as Python's does. *)
Inductive pyval : Type :=
  | PNone
  | PBool (b : bool)
  | PInt (n : Z)
  | PStr (s : string)
  | PList (l : list pyval)
  | PDict (d : list (string * pyval)).

(** The exceptions the module can raise; none is caught inside it. *)
Inductive exn : Type := KeyError | IndexError | TypeError | ValueError.

Inductive result (A : Type) : Type :=
  | Ok (a : A)
  | Raise (e : exn).
Arguments Ok {A} a.
Arguments Raise {A} e.

#[global] Instance result_ret : MRet result := fun _ a => Ok a.
#[global] Instance result_bind : MBind result := fun _ _ f m =>
  match m with
  | Ok a => f a
  | Raise e => Raise e
  end.

Definition is_ok {A} (r : result A) : bool :=
  match r with Ok _ => true | Raise _ => false end.

(** [v is None] *)
Definition is_none (v : pyval) : bool :=
  match v with PNone => true | _ => false end.

(** [type(v) == str] *)
Definition is_str (v : pyval) : bool :=
  match v with PStr _ => true | _ => false end.

(** ** Dictionaries with string keys *)

Module PyDict.

Definition dict (A : Type) : Type := list (string * A).

(** [d.get(k)] *)
Fixpoint get {A} (k : string) (d : dict A) : option A :=
  match d with
  | [] => None
  | (k', v) :: d' => if decide (k = k') then Some v else get k d'
  end.

(** [d[k] = v]: an existing key keeps its position, a new key goes to
    the end. *)
Fixpoint set {A} (k : string) (v : A) (d : dict A) : dict A :=
  match d with
  | [] => [(k, v)]
  | (k', v') :: d' =>
      if decide (k = k') then (k, v) :: d' else (k', v') :: set k v d'
  end.

(** [k in d] *)
Definition contains {A} (k : string) (d : dict A) : bool :=
  match get k d with Some _ => true | None => false end.

(** [list(d)]: the keys in iteration order. *)
Definition keys {A} (d : dict A) : list string := d.*1.

(** [d[k]], which raises [KeyError] on a missing key. *)
Definition getitem {A} (d : dict A) (k : string) : result A :=
  match get k d with
  | Some v => Ok v
  | None => Raise KeyError
  end.

(** [sorted(d)]: the keys in increasing order of their code points. *)
Definition sorted {A} (d : dict A) : list string :=
  merge_sort String.le (keys d).

End PyDict.

Import PyDict.

(** [l[i]] on a list: a negative index counts from the end, an index out
    of range raises [IndexError]. *)
Definition list_getitem {A} (l : list A) (i : Z) : result A :=
  let n := Z.of_nat (length l) in
  let j := if decide (i < 0) then i + n else i in
  if decide (0 <= j < n) then
    match l !! Z.to_nat j with
    | Some x => Ok x
    | None => Raise IndexError
    end
  else Raise IndexError.

(** ** Strings *)

Module PyStr.

Definition space : ascii := " "%char.
Definition dquote : ascii := "034"%char.
(** The two characters backslash and [n], and the line feed. *)
Definition escaped_newline : string := String "092"%char "n".
Definition newline : string := String "010"%char "".

(** [s.split(sep)] for a separator of one character: the pieces between
    the separators; never the empty list. *)
Fixpoint split (sep : ascii) (s : string) : list string :=
  match s with
  | "" => [""]
  | String c s' =>
      if decide (c = sep) then "" :: split sep s'
      else match split sep s' with
           | w :: ws => String c w :: ws
           | [] => [String c ""]
           end
  end.

(** The scan of [s.replace(old, new)] for a non-empty [old]: [skip] is
    the number of characters of the current match still to drop. *)
Fixpoint replace_go (old new : string) (skip : nat) (s : string) : string :=
  match s with
  | "" => ""
  | String c s' =>
      match skip with
      | S k => replace_go old new k s'
      | O =>
          if String.prefix old s
          then new +:+ replace_go old new (String.length old - 1) s'
          else String c (replace_go old new 0 s')
      end
  end.

(** With an empty [old], Python puts [new] before every character and
    at the end. *)
Fixpoint intersperse (new s : string) : string :=
  match s with
  | "" => new
  | String c s' => new +:+ String c (intersperse new s')
  end.

(** [s.replace(old, new)]: every non-overlapping occurrence, leftmost
    first. *)
Definition replace (old new s : string) : string :=
  match old with
  | "" => intersperse new s
  | _ => replace_go old new 0 s
  end.

(** [s[-1]] *)
Fixpoint last_char (s : string) : option ascii :=
  match s with
  | "" => None
  | String c "" => Some c
  | String _ s' => last_char s'
  end.

(** [s[0]] *)
Definition first_char (s : string) : option ascii :=
  match s with
  | "" => None
  | String c _ => Some c
  end.

(** [s[:-1]] *)
Fixpoint drop_last (s : string) : string :=
  match s with
  | "" => ""
  | String _ "" => ""
  | String c s' => String c (drop_last s')
  end.

(** [s[1:-1]] *)
Definition slice_1_m1 (s : string) : string :=
  match s with
  | "" => ""
  | String _ s' => drop_last s'
  end.

End PyStr.

Import PyStr.

(** ** LegacyTopology.device_typename *)

(** The table [dev_type] of the static method, with its entries in the
    order of the source. *)
Definition dev_type : dict (dict string) :=
  [ ("ROUTER", [("from", "ROUTER"); ("desc", "Router"); ("type", "Router")]);
    ("QEMU", [("from", "QEMU"); ("desc", "QEMU"); ("type", "QEMU")]);
    ("VBOX", [("from", "VBOX"); ("desc", "VBOX"); ("type", "VBOX")]);
    ("FRSW", [("from", "FRSW"); ("desc", "Frame Relay switch");
              ("type", "FrameRelaySwitch")]);
    ("ETHSW", [("from", "ETHSW"); ("desc", "Ethernet switch");
               ("type", "EthernetSwitch")]);
    ("Hub", [("from", "Hub"); ("desc", "Ethernet hub");
             ("type", "EthernetHub")]);
    ("ATMSW", [("from", "ATMSW"); ("desc", "ATM switch");
               ("type", "ATMSwitch")]);
    ("ATMBR", [("from", "ATMBR"); ("desc", "ATMBR"); ("type", "ATMBR")]);
    ("Cloud", [("from", "Cloud"); ("desc", "Cloud"); ("type", "Cloud")]) ].

(** [item.split(' ')[0]] *)
Definition first_token (item : string) : result string :=
  list_getitem (split space item) 0.

Definition device_typename (item : string) : result (string * dict string) :=
  item_type ← first_token item;
  entry ← getitem dev_type item_type;
  from ← getitem entry "from";
  let name := replace (from +:+ " ") "" item in
  entry' ← getitem dev_type item_type;
  mret (name, entry').

(** ** LegacyTopology *)

(** The state of a [LegacyTopology] object.  The dictionary
    [self.topology] always has the three keys ['devices'], ['conf'] and
    ['artwork'], which are the first three fields here. *)
Record LegacyTopology : Type := mkLegacyTopology {
  devices : dict (dict pyval);
  conf : list (dict pyval);
  artwork : dict (dict (dict pyval));
  hv_id : Z;
  nid : Z;
  sections : list string;
  old_top : dict (dict (dict pyval))
}.

(** [LegacyTopology.__init__] *)
Definition init (sections : list string)
    (old_top : dict (dict (dict pyval))) : LegacyTopology :=
  {| devices := [];
     conf := [];
     artwork := [("SHAPE", []); ("NOTE", []); ("PIXMAP", [])];
     hv_id := 0;
     nid := 1;
     sections := sections;
     old_top := old_top |}.

Definition with_devices (d : dict (dict pyval)) (s : LegacyTopology) :=
  mkLegacyTopology d (conf s) (artwork s) (hv_id s) (nid s)
    (sections s) (old_top s).
Definition with_conf (c : list (dict pyval)) (s : LegacyTopology) :=
  mkLegacyTopology (devices s) c (artwork s) (hv_id s) (nid s)
    (sections s) (old_top s).
Definition with_artwork (a : dict (dict (dict pyval))) (s : LegacyTopology) :=
  mkLegacyTopology (devices s) (conf s) a (hv_id s) (nid s)
    (sections s) (old_top s).
Definition with_hv_id (h : Z) (s : LegacyTopology) :=
  mkLegacyTopology (devices s) (conf s) (artwork s) h (nid s)
    (sections s) (old_top s).
Definition with_nid (n : Z) (s : LegacyTopology) :=
  mkLegacyTopology (devices s) (conf s) (artwork s) (hv_id s) n
    (sections s) (old_top s).

(** A method runs on the object and either returns or raises; in both
    cases the object keeps what was written to it before. *)
Definition M (A : Type) : Type := LegacyTopology → result A * LegacyTopology.

#[global] Instance M_ret : MRet M := fun _ a s => (Ok a, s).
#[global] Instance M_bind : MBind M := fun _ _ f m s =>
  match m s with
  | (Ok a, s') => f a s'
  | (Raise e, s') => (Raise e, s')
  end.

Definition lift {A} (r : result A) : M A := fun s => (r, s).
Definition gets {A} (f : LegacyTopology → A) : M A := fun s => (Ok (f s), s).
Definition modify (f : LegacyTopology → LegacyTopology) : M unit :=
  fun s => (Ok tt, f s).

(** [for x in l: body(x)] *)
Fixpoint for_each {A} (l : list A) (body : A → M unit) : M unit :=
  match l with
  | [] => mret tt
  | x :: l' => body x;; for_each l' body
  end.

(** A loop that updates a local variable. *)
Fixpoint for_fold {A B} (l : list A) (acc : B) (body : B → A → M B) : M B :=
  match l with
  | [] => mret acc
  | x :: l' => acc' ← body acc x; for_fold l' acc' body
  end.

(** [self.old_top[instance][item]] *)
Definition old_top_item (instance item : string) : M (dict pyval) :=
  top ← gets old_top;
  lift (section ← getitem top instance; getitem section item).

(** [self.old_top[instance][item][s_item]] *)
Definition old_top_field (instance item s_item : string) : M pyval :=
  record ← old_top_item instance item;
  lift (getitem record s_item).

(** [self.topology['devices'][name] = record] *)
Definition set_device (name : string) (record : dict pyval) : M unit :=
  modify (fun s => with_devices (set name record (devices s)) s).

(** [self.topology['devices'][name]] *)
Definition get_device (name : string) : M (dict pyval) :=
  devs ← gets devices;
  lift (getitem devs name).

(** [self.topology['devices'][name][field] = v] *)
Definition set_device_field (name field : string) (v : pyval) : M unit :=
  record ← get_device name;
  set_device name (set field v record).

(** [self.topology['devices'][name][field]] *)
Definition get_device_field (name field : string) : M pyval :=
  record ← get_device name;
  lift (getitem record field).

(** [self.topology['artwork'][item_type][item_id] = record] *)
Definition set_artwork_item (item_type item_id : string)
    (record : dict pyval) : M unit :=
  art ← gets artwork;
  group ← lift (getitem art item_type);
  modify (with_artwork (set item_type (set item_id record group) art)).

(** [self.topology['artwork'][item_type][item_id][s_item] = v] *)
Definition set_artwork_field (item_type item_id s_item : string)
    (v : pyval) : M unit :=
  art ← gets artwork;
  group ← lift (getitem art item_type);
  record ← lift (getitem group item_id);
  modify (with_artwork
            (set item_type (set item_id (set s_item v record) group) art)).

(** [len(s) > 1 and s[0] == '"' and s[-1] == '"'] *)
Definition is_quoted (s : string) : bool :=
  bool_decide (1 < String.length s)%nat
  && bool_decide (first_char s = Some dquote)
  && bool_decide (last_char s = Some dquote).

(** Lines 60 to 62 on a string: drop one pair of surrounding quotes. *)
Definition strip_quotes (s : string) : string :=
  if is_quoted s then slice_1_m1 s else s.

(** Lines 54 to 62: the value stored for the field [s_detail] of an
    artwork item of category [item_type]. *)
Definition artwork_value (item_type : string) (s_detail : pyval) : pyval :=
  let s_type_is_str := is_str s_detail in
  let s_detail :=
    match s_detail with
    | PStr t =>
        if bool_decide (item_type = "NOTE") && s_type_is_str
        then PStr (replace escaped_newline newline t)
        else s_detail
    | _ => s_detail
    end in
  match s_detail with
  | PStr t => if s_type_is_str then PStr (strip_quotes t) else s_detail
  | _ => s_detail
  end.

Definition add_artwork_item (instance item : string) : M unit :=
  record ← old_top_item instance item;
  if contains "interface" record then mret tt
  else
    match split space item with
    | [item_type; item_id] =>
        set_artwork_item item_type item_id [];;
        record ← old_top_item instance item;
        for_each (sorted record) (fun s_item =>
          v ← old_top_field instance item s_item;
          if is_none v then mret tt
          else
            s_detail ← old_top_field instance item s_item;
            set_artwork_field item_type item_id s_item
              (artwork_value item_type s_detail))
    | _ => lift (Raise ValueError)
    end.

Definition add_conf_item (instance item : string) : M unit :=
  record ← old_top_item instance item;
  tmp_conf ← for_fold (sorted record) [] (fun tmp_conf s_item =>
    v ← old_top_field instance item s_item;
    if is_none v then mret tmp_conf
    else
      v' ← old_top_field instance item s_item;
      mret (set s_item v' tmp_conf));
  modify (fun s => with_conf (conf s ++ [tmp_conf])%list s);;
  n ← gets (fun s => Z.of_nat (length (conf s)));
  modify (with_hv_id (n - 1)).

(** [v == 'Router'] and the like *)
Definition eq_str (v : pyval) (t : string) : bool :=
  match v with
  | PStr s => bool_decide (s = t)
  | _ => false
  end.

Section MODEL_TRANSFORM.

(** The table [gns3converter.models.MODEL_TRANSFORM], from legacy model
    names to the names of the new format.  Its module is not part of
    the sources verified here, so the table is a parameter. *)
Variable MODEL_TRANSFORM : dict pyval.

(** [MODEL_TRANSFORM[m]]: the keys of the table are strings; a list or
    a dictionary cannot be hashed. *)
Definition model_transform (m : pyval) : result pyval :=
  match m with
  | PStr s => getitem MODEL_TRANSFORM s
  | PList _ | PDict _ => Raise TypeError
  | _ => Raise KeyError
  end.

Definition add_physical_item (instance item : string) : M unit :=
  '(name, dev_type) ← lift (device_typename item);
  set_device name [];;
  hv ← gets hv_id;
  set_device_field name "hv_id" (PInt hv);;
  n ← gets nid;
  set_device_field name "node_id" (PInt n);;
  ty ← lift (getitem dev_type "type");
  set_device_field name "type" (PStr ty);;
  record ← old_top_item instance item;
  for_each (sorted record) (fun s_item =>
    v ← old_top_field instance item s_item;
    if is_none v then mret tt
    else
      v' ← old_top_field instance item s_item;
      set_device_field name s_item v');;
  is_router ←
    (if bool_decide (instance ≠ "GNS3-DATA")
     then ty ← get_device_field name "type"; mret (eq_str ty "Router")
     else mret false);
  (if is_router : bool then
     device ← get_device name;
     if negb (contains "model" device) then
       cf ← gets conf;
       hv ← gets hv_id;
       block ← lift (list_getitem cf hv);
       m ← lift (getitem block "model");
       set_device_field name "model" m
     else
       m ← get_device_field name "model";
       m' ← lift (model_transform m);
       set_device_field name "model" m'
   else mret tt);;
  modify (fun s => with_nid (nid s + 1) s).

(** The calls a conversion makes on the object, in order; an exception
    ends the conversion. *)
Inductive call : Type :=
  | AddArtworkItem (instance item : string)
  | AddConfItem (instance item : string)
  | AddPhysicalItem (instance item : string).

Definition do_call (c : call) : M unit :=
  match c with
  | AddArtworkItem instance item => add_artwork_item instance item
  | AddConfItem instance item => add_conf_item instance item
  | AddPhysicalItem instance item => add_physical_item instance item
  end.

Definition run (cs : list call) : M unit := for_each cs do_call.

End MODEL_TRANSFORM.

(** A sample of the translation table, for the examples. *)
Definition sample_transform : dict pyval :=
  [("3640", PStr "c3600"); ("7200", PStr "c7200")].

Definition sample_top : dict (dict (dict pyval)) :=
  [("R1", [("3600", [("model", PStr "c3600"); ("ram", PNone)]);
           ("ROUTER R1", [("model", PNone); ("x", PStr "10")]);
           ("ROUTER R2", [("x", PStr "5"); ("model", PStr "7200")])]);
   ("GNS3-DATA", [("Cloud C1", [("x", PStr "1")]);
                  ("NOTE 1", [("text", PStr (String dquote ("hello" +:+ escaped_newline +:+ "world" +:+ String dquote "")))])])].

(** ** JSONTopology *)

Record JSONTopology : Type := mkJSONTopology {
  _nodes : pyval;
  _links : pyval;
  _notes : pyval;
  _shapes : pyval;
  _images : pyval;
  _servers : pyval;
  _name : pyval
}.

(** [JSONTopology.__init__] *)
Definition default_servers : pyval :=
  PList [PDict [("host", PStr "127.0.0.1"); ("id", PInt 1);
                ("local", PBool true); ("port", PInt 8000)]].

Definition JSONTopology_init : JSONTopology :=
  {| _nodes := PNone; _links := PNone; _notes := PNone; _shapes := PNone;
     _images := PNone; _servers := default_servers; _name := PNone |}.

(** The property setters. *)
Definition set_nodes (nodes : pyval) (self : JSONTopology) :=
  mkJSONTopology nodes (_links self) (_notes self) (_shapes self)
    (_images self) (_servers self) (_name self).
Definition set_links (links : pyval) (self : JSONTopology) :=
  mkJSONTopology (_nodes self) links (_notes self) (_shapes self)
    (_images self) (_servers self) (_name self).
Definition set_notes (notes : pyval) (self : JSONTopology) :=
  mkJSONTopology (_nodes self) (_links self) notes (_shapes self)
    (_images self) (_servers self) (_name self).
Definition set_shapes (shapes : pyval) (self : JSONTopology) :=
  mkJSONTopology (_nodes self) (_links self) (_notes self) shapes
    (_images self) (_servers self) (_name self).
Definition set_images (images : pyval) (self : JSONTopology) :=
  mkJSONTopology (_nodes self) (_links self) (_notes self) (_shapes self)
    images (_servers self) (_name self).
Definition set_servers (servers : pyval) (self : JSONTopology) :=
  mkJSONTopology (_nodes self) (_links self) (_notes self) (_shapes self)
    (_images self) servers (_name self).
Definition set_name (name : pyval) (self : JSONTopology) :=
  mkJSONTopology (_nodes self) (_links self) (_notes self) (_shapes self)
    (_images self) (_servers self) name.

(** [v[key]] with a string key: only a dictionary can be read this way. *)
Definition subscript (v : pyval) (key : string) : result pyval :=
  match v with
  | PDict d => getitem d key
  | _ => Raise TypeError
  end.

(** [topology['topology'][key] = v] *)
Definition set_topology_key (key : string) (v : pyval)
    (topology : dict pyval) : result (dict pyval) :=
  inner ← getitem topology "topology";
  match inner with
  | PDict d => mret (set "topology" (PDict (set key v d)) topology)
  | _ => Raise TypeError
  end.

Definition get_topology (self : JSONTopology) : result pyval :=
  let topology :=
    [("name", _name self); ("resources_type", PStr "local");
     ("topology", PDict []); ("type", PStr "topology");
     ("version", PStr "1.0")] in
  topology ←
    (if negb (is_none (_links self))
     then set_topology_key "links" (_links self) topology
     else mret topology);
  topology ←
    (if negb (is_none (_nodes self))
     then set_topology_key "nodes" (_nodes self) topology
     else mret topology);
  topology ←
    (if negb (is_none (_servers self))
     then set_topology_key "servers" (_servers self) topology
     else mret topology);
  topology ←
    (if negb (is_none (_notes self))
     then set_topology_key "notes" (_notes self) topology
     else mret topology);
  ellipse ← subscript (_shapes self) "ellipse";
  topology ←
    (if negb (is_none ellipse)
     then ellipse' ← subscript (_shapes self) "ellipse";
          set_topology_key "ellipses" ellipse' topology
     else mret topology);
  rectangle ← subscript (_shapes self) "rectangle";
  topology ←
    (if negb (is_none rectangle)
     then rectangle' ← subscript (_shapes self) "rectangle";
          set_topology_key "rectangles" rectangle' topology
     else mret topology);
  topology ←
    (if negb (is_none (_images self))
     then set_topology_key "images" (_images self) topology
     else mret topology);
  mret (PDict topology).

(** ** Auxiliary definitions for the statements *)

(** A string wrapped in one pair of double quotes. *)
Definition quoted (s : string) : string :=
  String dquote (s +:+ String dquote "").

(** [self.old_top[instance][item]], read off a state. *)
Definition legacy_record (s : LegacyTopology) (instance item : string)
    : result (dict pyval) :=
  section ← getitem (old_top s) instance; getitem section item.

(** The value of a field that is present and not [None]. *)
Definition non_null (o : option pyval) : option pyval :=
  match o with
  | Some v => if is_none v then None else Some v
  | None => None
  end.

(** One round of the copying loops: the field [s_item] of [record] goes
    to [target], through [f], unless it is [None]. *)
Definition copy_step (f : pyval → pyval) (record target : dict pyval)
    (s_item : string) : dict pyval :=
  match non_null (get s_item record) with
  | Some v => set s_item (f v) target
  | None => target
  end.

Definition copy_fields (f : pyval → pyval) (record : dict pyval)
    (ks : list string) (target : dict pyval) : dict pyval :=
  foldl (copy_step f record) target ks.

(** [self.topology['devices'][name][field]], read off a state. *)
Definition device_field (s : LegacyTopology) (name field : string)
    : option pyval :=
  record ← get name (devices s); get field record.

(** The three fields [add_physical_item] writes before it copies the
    legacy record, and the record after the copy. *)
Definition base_record (s : LegacyTopology) (ty : string) : dict pyval :=
  [("hv_id", PInt (hv_id s)); ("node_id", PInt (nid s)); ("type", PStr ty)].

Definition copied_record (s : LegacyTopology) (ty : string)
    (record : dict pyval) : dict pyval :=
  copy_fields id record (sorted record) (base_record s ty).

(** [self.topology['conf'][self.hv_id]['model']], read off a state. *)
Definition conf_model (s : LegacyTopology) : result pyval :=
  block ← list_getitem (conf s) (hv_id s); getitem block "model".

(** Lines 101 to 109 of [add_physical_item], run on their own. *)
Definition model_stage (MODEL_TRANSFORM : dict pyval)
    (instance name : string) : M unit :=
  is_router ←
    (if bool_decide (instance ≠ "GNS3-DATA")
     then ty ← get_device_field name "type"; mret (eq_str ty "Router")
     else mret false);
  (if is_router : bool then
     device ← get_device name;
     if negb (contains "model" device) then
       cf ← gets conf;
       hv ← gets hv_id;
       block ← lift (list_getitem cf hv);
       m ← lift (getitem block "model");
       set_device_field name "model" m
     else
       m ← get_device_field name "model";
       m' ← lift (model_transform MODEL_TRANSFORM m);
       set_device_field name "model" m'
   else mret tt);;
  modify (fun s => with_nid (nid s + 1) s).

(** The cursor [hv_id] is the index of the last configuration block, and
    0 while there is none. *)
Definition cursor_ok (s : LegacyTopology) : Prop :=
  hv_id s = Z.max 0 (Z.of_nat (length (conf s)) - 1).

(** The number of calls to [add_physical_item] in a sequence. *)
Definition is_physical (c : call) : bool :=
  match c with AddPhysicalItem _ _ => true | _ => false end.

Definition count_physical (cs : list call) : Z :=
  Z.of_nat (length (List.filter is_physical cs)).

(** A legacy topology with one cloud and no hypervisor, and the object
    after the cloud is added. *)
Definition cloud_top : dict (dict (dict pyval)) :=
  [("GNS3-DATA", [("Cloud C1", [("x", PStr "1")])])].

Definition cloud_added : result unit * LegacyTopology :=
  add_physical_item sample_transform "GNS3-DATA" "Cloud C1"
    (init [] cloud_top).

(** A legacy topology whose cloud has a field named [node_id], and the
    object after the cloud is added. *)
Definition numbered_top : dict (dict (dict pyval)) :=
  [("GNS3-DATA", [("Cloud C1", [("node_id", PStr "7")])])].

Definition numbered_added : result unit * LegacyTopology :=
  add_physical_item sample_transform "GNS3-DATA" "Cloud C1"
    (init [] numbered_top).

(** The object after the configuration block of [sample_top] is added,
    and after the router [R1] is added next. *)
Definition conf_added : result unit * LegacyTopology :=
  run sample_transform [AddConfItem "R1" "3600"] (init [] sample_top).

Definition router_added : result unit * LegacyTopology :=
  add_physical_item sample_transform "R1" "ROUTER R1" conf_added.2.

Definition router_entry : dict string :=
  [("from", "ROUTER"); ("desc", "Router"); ("type", "Router")].

Definition cloud_entry : dict string :=
  [("from", "Cloud"); ("desc", "Cloud"); ("type", "Cloud")].

(** A legacy topology whose router has a field named [type] and no
    model, and the object after its configuration block and the router
    are added. *)
Definition typed_top : dict (dict (dict pyval)) :=
  [("R1", [("3600", [("model", PStr "c3600")]);
           ("ROUTER R1", [("type", PStr "dynamips"); ("x", PStr "10")])])].

Definition typed_added : result unit * LegacyTopology :=
  run sample_transform
    [AddConfItem "R1" "3600"; AddPhysicalItem "R1" "ROUTER R1"]
    (init [] typed_top).

(** The type that [add_physical_item] tests at line 102: the field
    [type] of the device after the legacy record is copied over it. *)
Definition stored_type (ty : string) (record : dict pyval) : pyval :=
  default (PStr ty) (non_null (get "type" record)).

(** Whether the character [c] occurs in [s]. *)
Fixpoint has_char (c : ascii) (s : string) : bool :=
  match s with
  | "" => false
  | String a s' => bool_decide (a = c) || has_char c s'
  end.

(** The dictionary [get_topology] returns, around its inner dictionary
    [topology['topology']]. *)
Definition assembled (name : pyval) (inner : dict pyval) : dict pyval :=
  [("name", name); ("resources_type", PStr "local");
   ("topology", PDict inner); ("type", PStr "topology");
   ("version", PStr "1.0")].

(** [if v is not None: inner[key] = v] *)
Definition put (key : string) (v : pyval) (inner : dict pyval) : dict pyval :=
  if is_none v then inner else set key v inner.

(** What a key of the inner dictionary holds for the source value [v]:
    nothing for [None], and [v] itself otherwise. *)
Definition optional (v : pyval) : option pyval :=
  if is_none v then None else Some v.

(** A new [JSONTopology] whose shapes are set to two empty lists. *)
Definition empty_shapes : JSONTopology :=
  set_shapes (PDict [("ellipse", PList []); ("rectangle", PList [])])
    JSONTopology_init.

(** The note of [sample_top], added to a new object. *)
Definition note_added : result unit * LegacyTopology :=
  add_artwork_item "GNS3-DATA" "NOTE 1" (init [] sample_top).

(** The cloud of [cloud_top], added twice to a new object. *)
Definition cloud_added_twice : result unit * LegacyTopology :=
  run sample_transform
    [AddPhysicalItem "GNS3-DATA" "Cloud C1";
     AddPhysicalItem "GNS3-DATA" "Cloud C1"]
    (init [] cloud_top).

(** A legacy topology whose router has a field named [hv_id], and the
    object after its configuration block and the router are added. *)
Definition pinned_top : dict (dict (dict pyval)) :=
  [("R1", [("3600", [("model", PStr "c3600")]);
           ("ROUTER R1", [("hv_id", PStr "5"); ("model", PStr "7200")])])].

Definition pinned_added : result unit * LegacyTopology :=
  run sample_transform
    [AddConfItem "R1" "3600"; AddPhysicalItem "R1" "ROUTER R1"]
    (init [] pinned_top).

(** [self.old_top[instance][item]] raises [KeyError]: the instance is
    not in the legacy topology, or the item is not in the instance. *)
Definition legacy_missing (s : LegacyTopology) (instance item : string)
    : Prop :=
  get instance (old_top s) = None
  ∨ ∃ section, get instance (old_top s) = Some section
               ∧ get item section = None.

(** [self.topology['artwork'][item_type].get(item_id)], read off a
    state. *)
Definition artwork_record (s : LegacyTopology) (item_type item_id : string)
    : option (dict pyval) :=
  group ← get item_type (artwork s); get item_id group.

(** No record of the legacy topology has a non-null field [field]. *)
Definition no_legacy_field (field : string)
    (top : dict (dict (dict pyval))) : bool :=
  forallb
    (fun section : string * dict (dict pyval) =>
       forallb
         (fun record : string * dict pyval =>
            match non_null (get field record.2) with
            | None => true
            | Some _ => false
            end)
         section.2)
    top.

(** Every device has an integer [node_id] between 1 and [nid] - 1, and
    two devices of different names have different [node_id]s. *)
Definition node_ids_ok (s : LegacyTopology) : Prop :=
  (1 ≤ nid s)%Z
  ∧ (∀ name device, get name (devices s) = Some device →
       ∃ n, get "node_id" device = Some (PInt n) ∧ (1 ≤ n < nid s)%Z)
  ∧ (∀ name1 name2 device1 device2 v,
       get name1 (devices s) = Some device1 →
       get name2 (devices s) = Some device2 →
       get "node_id" device1 = Some v →
       get "node_id" device2 = Some v →
       name1 = name2).

Definition backslash : ascii := "092"%char.

(** The keys, in order, of the pairs whose value is not [None]. *)
Definition present (kvs : list (string * pyval)) : list string :=
  (List.filter (fun kv : string * pyval => negb (is_none kv.2)) kvs).*1.

(** A legacy topology with two artwork items that [add_artwork_item]
    cannot take: one whose key is a single token and one whose category
    is not in the artwork. *)
Definition odd_top : dict (dict (dict pyval)) :=
  [("GNS3-DATA", [("NOTE", [("text", PStr "a")]);
                  ("LABEL 1", [("text", PStr "b")])])].

(** A conversion of [sample_top]: the configuration block, the two
    routers and the note. *)
Definition sample_run : result unit * LegacyTopology :=
  run sample_transform
    [AddConfItem "R1" "3600"; AddPhysicalItem "R1" "ROUTER R1";
     AddPhysicalItem "R1" "ROUTER R2"; AddArtworkItem "GNS3-DATA" "NOTE 1"]
    (init [] sample_top).

(** The number of calls to [add_conf_item] in a sequence. *)
Definition is_conf (c : call) : bool :=
  match c with AddConfItem _ _ => true | _ => false end.

Definition count_conf (cs : list call) : nat :=
  length (List.filter is_conf cs).

(** A [JSONTopology] whose shapes are a list, as the docstring of the
    setter says. *)
Definition list_shapes : JSONTopology :=
  set_shapes (PList []) JSONTopology_init.

(** A computation that leaves the component [f] of the object alone,
    whether it returns or raises. *)
Definition keeps {B A} (f : LegacyTopology → B) (m : M A) : Prop :=
  ∀ s, f (m s).2 = f s.

(** * Properties *)

(** ** Evaluations *)

Example device_typename_router :
  device_typename "ROUTER R1"
  = Ok ("R1", [("from", "ROUTER"); ("desc", "Router"); ("type", "Router")]).
Proof. reflexivity. Qed.

Example device_typename_unknown :
  device_typename "SWITCH S1" = Raise KeyError.
Proof. reflexivity. Qed.

Example device_typename_spaces :
  device_typename "Cloud My Cloud 1"
  = Ok ("My 1", [("from", "Cloud"); ("desc", "Cloud"); ("type", "Cloud")]).
Proof. reflexivity. Qed.

(** ** Dictionaries *)

Section dict_facts.
Context {A : Type}.
Implicit Types (d : dict A) (k j : string) (v : A).

Lemma get_set d k j v :
  get j (set k v d) = if decide (j = k) then Some v else get j d.
Proof.
  induction d as [|[k' v'] d IH]; simpl.
  - repeat case_decide; congruence.
  - destruct (decide (k = k')) as [->|Hkk']; simpl.
    + repeat case_decide; congruence.
    + rewrite IH. repeat case_decide; congruence.
Qed.

Lemma get_set_eq d k v : get k (set k v d) = Some v.
Proof. rewrite get_set. by rewrite decide_True. Qed.

Lemma get_set_ne d k j v : j ≠ k → get j (set k v d) = get j d.
Proof. intros. rewrite get_set. by rewrite decide_False. Qed.

Lemma set_set d k v v' : set k v' (set k v d) = set k v' d.
Proof.
  induction d as [|[k' w] d IH]; simpl.
  - by rewrite decide_True.
  - destruct (decide (k = k')) as [->|Hkk']; simpl.
    + by rewrite decide_True.
    + rewrite decide_False by done. by rewrite IH.
Qed.

Lemma set_id d k v : get k d = Some v → set k v d = d.
Proof.
  induction d as [|[k' w] d IH]; simpl; [done|].
  destruct (decide (k = k')) as [->|Hkk']; [congruence|].
  intros. by rewrite IH.
Qed.

Lemma get_None d k : get k d = None ↔ k ∉ keys d.
Proof.
  unfold keys. induction d as [|[k' w] d IH]; simpl.
  - split; [intros _; apply not_elem_of_nil|done].
  - rewrite not_elem_of_cons. case_decide; [|tauto].
    split; [done|tauto].
Qed.

Lemma get_is_Some d k : is_Some (get k d) ↔ k ∈ keys d.
Proof.
  rewrite <-not_eq_None_Some, get_None.
  destruct (decide (k ∈ keys d)); tauto.
Qed.

Lemma keys_set_old d k v : k ∈ keys d → keys (set k v d) = keys d.
Proof.
  unfold keys. induction d as [|[k' w] d IH]; simpl.
  - intros ?%elem_of_nil. done.
  - intros [->|Hin]%elem_of_cons.
    + by rewrite decide_True.
    + case_decide; simpl; [congruence|]. f_equal. by apply IH.
Qed.

Lemma keys_set_new d k v : k ∉ keys d → keys (set k v d) = (keys d ++ [k])%list.
Proof.
  unfold keys. induction d as [|[k' w] d IH]; simpl; [done|].
  intros [? ?]%not_elem_of_cons.
  rewrite decide_False by done. simpl. f_equal. by apply IH.
Qed.

Lemma elem_of_sorted d k : k ∈ sorted d ↔ k ∈ keys d.
Proof. unfold sorted. by rewrite merge_sort_Permutation. Qed.

Lemma sorted_Sorted d : Sorted String.le (sorted d).
Proof. apply (Sorted_merge_sort _). Qed.

End dict_facts.

(** ** Strings *)

Lemma length_drop_last s :
  String.length (drop_last s) = pred (String.length s).
Proof.
  induction s as [|c s IH]; [done|].
  destruct s as [|c' s']; [done|].
  change (drop_last (String c (String c' s')))
    with (String c (drop_last (String c' s'))).
  change (String.length (String c (drop_last (String c' s'))))
    with (S (String.length (drop_last (String c' s')))).
  by rewrite IH.
Qed.

Lemma is_quoted_shrinks s :
  is_quoted s = true →
  (String.length (slice_1_m1 s) + 2 = String.length s)%nat.
Proof.
  unfold is_quoted. intros H.
  apply andb_prop in H as [H _]. apply andb_prop in H as [H _].
  apply bool_decide_eq_true in H.
  destruct s as [|c s]; simpl in *; [lia|].
  rewrite length_drop_last. lia.
Qed.

Example strip_quotes_once : strip_quotes (quoted "a") = "a".
Proof. reflexivity. Qed.

(** ** Strings in double quotes *)

Lemma last_char_snoc s c : last_char (s +:+ String c "") = Some c.
Proof.
  induction s as [|a s IH]; [done|].
  change (last_char (String a (s +:+ String c "")) = Some c).
  destruct s as [|b s]; [done|]. exact IH.
Qed.

Lemma drop_last_snoc s c : drop_last (s +:+ String c "") = s.
Proof.
  induction s as [|a s IH]; [done|].
  change (drop_last (String a (s +:+ String c "")) = String a s).
  destruct s as [|b s]; [done|].
  change (String a (drop_last (String b s +:+ String c "")) = String a (String b s)).
  by rewrite IH.
Qed.

Lemma is_quoted_quoted s : is_quoted (quoted s) = true.
Proof.
  unfold is_quoted, quoted.
  rewrite !andb_true_iff, !bool_decide_eq_true. repeat split.
  - destruct s; simpl; lia.
  - change (last_char (String dquote (s +:+ String dquote "")) = Some dquote).
    destruct s as [|a s]; [done|].
    apply (last_char_snoc (String a s)).
Qed.

Lemma last_char_decompose s c :
  last_char s = Some c → s = drop_last s +:+ String c "".
Proof.
  induction s as [|a s IH]; [done|].
  destruct s as [|b s]; [by intros [= ->]|].
  change (last_char (String b s) = Some c →
          String a (String b s)
          = String a (drop_last (String b s) +:+ String c "")).
  intros H. by rewrite <-(IH H).
Qed.

Lemma is_quoted_spec s :
  is_quoted s = true
  ↔ (1 < String.length s)%nat
    ∧ first_char s = Some dquote ∧ last_char s = Some dquote.
Proof.
  unfold is_quoted. rewrite !andb_true_iff, !bool_decide_eq_true. tauto.
Qed.

Lemma is_quoted_inv s : is_quoted s = true → ∃ t, s = quoted t.
Proof.
  intros (Hlen & Hfirst & Hlast)%is_quoted_spec.
  destruct s as [|a s]; [done|]. injection Hfirst as ->.
  destruct s as [|b s]; [simpl in Hlen; lia|].
  change (last_char (String b s) = Some dquote) in Hlast.
  exists (drop_last (String b s)). unfold quoted.
  by rewrite <-(last_char_decompose _ _ Hlast).
Qed.

(** ** C5: stripping quotes *)

(** C5, as stated, fails: a value wrapped in two layers of double quotes
    loses one layer at each application, so the second application
    changes the result of the first. *)
Lemma strip_quotes_not_idempotent :
  strip_quotes (quoted (quoted "a")) = quoted "a"
  ∧ strip_quotes (strip_quotes (quoted (quoted "a"))) = "a"
  ∧ strip_quotes (strip_quotes (quoted (quoted "a")))
    ≠ strip_quotes (quoted (quoted "a")).
Proof. repeat split; try reflexivity. discriminate. Qed.

(** C5, amended: one application removes exactly one pair of
    surrounding double quotes (character 34): a string wrapped in a pair
    of them comes back as it was before the wrapping, a string that is
    not of length above one with a double quote at both ends is left as
    it is, and every other string is some string so wrapped.  A second
    application returns the result of the first exactly when that
    result is not itself a string of length above one that starts and
    ends with a double quote. *)
Theorem strip_quotes_idempotent_iff (s : string) :
  quoted s = String "034"%char (s +:+ String "034"%char "")
  ∧ strip_quotes (quoted s) = s
  ∧ (is_quoted s = false → strip_quotes s = s)
  ∧ (is_quoted s = true → ∃ t, s = quoted t ∧ strip_quotes s = t)
  ∧ (is_quoted s = true
     ↔ (1 < String.length s)%nat
       ∧ first_char s = Some "034"%char ∧ last_char s = Some "034"%char)
  ∧ (strip_quotes (strip_quotes s) = strip_quotes s
     ↔ is_quoted (strip_quotes s) = false).
Proof.
  assert (∀ t, strip_quotes (quoted t) = t) as Hquoted.
  { intros t. unfold strip_quotes. rewrite is_quoted_quoted.
    unfold quoted, slice_1_m1. apply drop_last_snoc. }
  split; [reflexivity|]. split; [apply Hquoted|]. split; [|split; [|split]].
  - intros Hq. unfold strip_quotes. by rewrite Hq.
  - intros [t ->]%is_quoted_inv. exists t. by rewrite Hquoted.
  - apply is_quoted_spec.
  - split.
    + intros Heq. destruct (is_quoted (strip_quotes s)) eqn:Hq; [|done].
      pose proof (is_quoted_shrinks _ Hq) as Hlen.
      unfold strip_quotes at 1 in Heq. rewrite Hq in Heq.
      rewrite Heq in Hlen. lia.
    + intros Hq. unfold strip_quotes at 1. by rewrite Hq.
Qed.

Lemma strip_quotes_idempotent_iff_witness :
  is_quoted (strip_quotes (quoted "a")) = false
  ∧ strip_quotes (strip_quotes (quoted "a")) = strip_quotes (quoted "a").
Proof.
  split; [reflexivity|].
  destruct (strip_quotes_idempotent_iff (quoted "a"))
    as (_ & _ & _ & _ & _ & Hiff).
  apply Hiff. reflexivity.
Defined.

(** ** The monad of methods *)

Lemma bind_run {A B} (m : M A) (f : A → M B) s :
  (m ≫= f) s
  = match m s with
    | (Ok a, s') => f a s'
    | (Raise e, s') => (Raise e, s')
    end.
Proof. reflexivity. Qed.

Lemma bind_Ok {A B} (m : M A) (f : A → M B) s a s' :
  m s = (Ok a, s') → (m ≫= f) s = f a s'.
Proof. intros H. by rewrite bind_run, H. Qed.

Lemma bind_Raise {A B} (m : M A) (f : A → M B) s e s' :
  m s = (Raise e, s') → (m ≫= f) s = (Raise e, s').
Proof. intros H. by rewrite bind_run, H. Qed.

Lemma with_devices_id s : with_devices (devices s) s = s.
Proof. by destruct s. Qed.

Lemma with_artwork_id s : with_artwork (artwork s) s = s.
Proof. by destruct s. Qed.

Section keeps_rules.
Context {B : Type} (f : LegacyTopology → B).

Lemma keeps_ret {A} (a : A) : keeps f (mret a).
Proof. by intros s. Qed.

Lemma keeps_lift {A} (r : result A) : keeps f (lift r).
Proof. by intros s. Qed.

Lemma keeps_gets {A} (g : LegacyTopology → A) : keeps f (gets g).
Proof. by intros s. Qed.

Lemma keeps_modify (g : LegacyTopology → LegacyTopology) :
  (∀ s, f (g s) = f s) → keeps f (modify g).
Proof. intros H s. apply H. Qed.

Lemma keeps_bind {A C} (m : M A) (k : A → M C) :
  keeps f m → (∀ a, keeps f (k a)) → keeps f (m ≫= k).
Proof.
  intros Hm Hk s. rewrite bind_run. specialize (Hm s).
  destruct (m s) as [[a|e] s']; simpl in *; [|done].
  by rewrite Hk.
Qed.

Lemma keeps_for_each {A} (l : list A) (body : A → M unit) :
  (∀ x, keeps f (body x)) → keeps f (for_each l body).
Proof.
  intros Hbody. induction l as [|x l IH]; simpl.
  - apply keeps_ret.
  - apply keeps_bind; auto.
Qed.

Lemma keeps_for_fold {A C} (l : list A) (acc : C) (body : C → A → M C) :
  (∀ acc x, keeps f (body acc x)) → keeps f (for_fold l acc body).
Proof.
  intros Hbody. revert acc. induction l as [|x l IH]; intros acc; simpl.
  - apply keeps_ret.
  - apply keeps_bind; auto.
Qed.

End keeps_rules.

(** Unfold the operations of the monad of methods. *)
Ltac run_unfold :=
  cbv [mbind M_bind mret M_ret lift gets modify] in *; simpl in *.

(** One step of a frame proof, by the shape of the computation. *)
Ltac keeps_step :=
  first
    [ match goal with H : _ |- _ => solve [apply H] end
    | apply keeps_ret
    | apply keeps_lift
    | apply keeps_gets
    | apply keeps_modify; intros; solve [auto]
    | apply keeps_for_each; intros
    | apply keeps_for_fold; intros
    | apply keeps_bind; [|intros]
    | match goal with
      | |- keeps _ (if ?b then _ else _) => destruct b
      | |- keeps _ (match ?x with _ => _ end) => destruct x
      end ].

(** ** What each method leaves alone *)

Lemma old_top_item_keeps {B} (f : LegacyTopology → B) instance item :
  keeps f (old_top_item instance item).
Proof. unfold old_top_item. repeat keeps_step. Qed.

Lemma old_top_field_keeps {B} (f : LegacyTopology → B) instance item s_item :
  keeps f (old_top_field instance item s_item).
Proof.
  unfold old_top_field. pose proof (old_top_item_keeps f).
  repeat keeps_step.
Qed.

Section device_frames.
Context {B : Type} (f : LegacyTopology → B).
Hypothesis f_devices : ∀ d s, f (with_devices d s) = f s.

Lemma set_device_keeps name record : keeps f (set_device name record).
Proof. unfold set_device. repeat keeps_step. Qed.

Lemma get_device_keeps name : keeps f (get_device name).
Proof. unfold get_device. repeat keeps_step. Qed.

Lemma set_device_field_keeps name field v :
  keeps f (set_device_field name field v).
Proof.
  unfold set_device_field.
  pose proof set_device_keeps. pose proof get_device_keeps.
  repeat keeps_step.
Qed.

Lemma get_device_field_keeps name field :
  keeps f (get_device_field name field).
Proof.
  unfold get_device_field. pose proof get_device_keeps.
  repeat keeps_step.
Qed.

Hypothesis f_nid : ∀ n s, f (with_nid n s) = f s.

(** [add_physical_item] writes to the devices and to [nid] only. *)
Lemma add_physical_item_keeps T instance item :
  keeps f (add_physical_item T instance item).
Proof.
  unfold add_physical_item.
  pose proof set_device_keeps. pose proof get_device_keeps.
  pose proof set_device_field_keeps. pose proof get_device_field_keeps.
  pose proof (old_top_item_keeps f). pose proof (old_top_field_keeps f).
  repeat keeps_step.
Qed.

End device_frames.

Section artwork_frames.
Context {B : Type} (f : LegacyTopology → B).
Hypothesis f_set_item :
  ∀ item_type item_id record,
    keeps f (set_artwork_item item_type item_id record).
Hypothesis f_set_field :
  ∀ item_type item_id s_item v,
    keeps f (set_artwork_field item_type item_id s_item v).

Lemma add_artwork_item_keeps_if instance item :
  keeps f (add_artwork_item instance item).
Proof.
  unfold add_artwork_item.
  pose proof (old_top_item_keeps f). pose proof (old_top_field_keeps f).
  repeat keeps_step.
Qed.

End artwork_frames.

(** [add_artwork_item] writes to the artwork only. *)
Lemma add_artwork_item_keeps {B} (f : LegacyTopology → B) instance item :
  (∀ a s, f (with_artwork a s) = f s) →
  keeps f (add_artwork_item instance item).
Proof.
  intros Hf. apply add_artwork_item_keeps_if; intros.
  - unfold set_artwork_item. repeat keeps_step.
  - unfold set_artwork_field. repeat keeps_step.
Qed.

(** The three categories of the artwork stay in place. *)
Lemma add_artwork_item_keeps_categories instance item :
  keeps (fun s => keys (artwork s)) (add_artwork_item instance item).
Proof.
  apply add_artwork_item_keeps_if.
  - intros item_type item_id record s.
    unfold set_artwork_item, getitem. run_unfold.
    destruct (get item_type (artwork s)) eqn:Hg; simpl; [|done].
    apply keys_set_old, get_is_Some. by rewrite Hg.
  - intros item_type item_id s_item v s.
    unfold set_artwork_field, getitem. run_unfold.
    destruct (get item_type (artwork s)) as [group|] eqn:Hg; simpl; [|done].
    destruct (get item_id group); simpl; [|done].
    apply keys_set_old, get_is_Some. by rewrite Hg.
Qed.

(** [add_conf_item] writes to the configuration blocks and to [hv_id]
    only. *)
Lemma add_conf_item_keeps {B} (f : LegacyTopology → B) instance item :
  (∀ c s, f (with_conf c s) = f s) →
  (∀ h s, f (with_hv_id h s) = f s) →
  keeps f (add_conf_item instance item).
Proof.
  intros Hc Hh. unfold add_conf_item.
  pose proof (old_top_item_keeps f). pose proof (old_top_field_keeps f).
  repeat keeps_step.
Qed.

(** ** Running the small operations *)

Lemma old_top_item_run instance item s :
  old_top_item instance item s = (legacy_record s instance item, s).
Proof. reflexivity. Qed.

Lemma old_top_field_run instance item s_item s record v :
  legacy_record s instance item = Ok record →
  get s_item record = Some v →
  old_top_field instance item s_item s = (Ok v, s).
Proof.
  intros Hrec Hv. unfold old_top_field.
  rewrite (bind_Ok _ _ _ record s) by (by rewrite old_top_item_run, Hrec).
  unfold lift, getitem. by rewrite Hv.
Qed.

Lemma get_device_run name s record :
  get name (devices s) = Some record →
  get_device name s = (Ok record, s).
Proof.
  intros H. unfold get_device, getitem. run_unfold. by rewrite H.
Qed.

Lemma set_device_field_run name field v s record :
  get name (devices s) = Some record →
  set_device_field name field v s
  = (Ok tt, with_devices (set name (set field v record) (devices s)) s).
Proof.
  intros H. unfold set_device_field.
  by rewrite (bind_Ok _ _ _ _ _ (get_device_run _ _ _ H)).
Qed.

Lemma get_device_field_run name field s record :
  get name (devices s) = Some record →
  get_device_field name field s = (getitem record field, s).
Proof.
  intros H. unfold get_device_field.
  by rewrite (bind_Ok _ _ _ _ _ (get_device_run _ _ _ H)).
Qed.

Lemma sorted_present (record : dict pyval) :
  Forall (fun k => is_Some (get k record)) (sorted record).
Proof.
  apply Forall_forall. intros k Hk.
  by apply get_is_Some, elem_of_sorted.
Qed.

(** ** The copying loops *)

Lemma copy_fields_cons f record k ks target :
  copy_fields f record (k :: ks) target
  = copy_fields f record ks (copy_step f record target k).
Proof. reflexivity. Qed.

(** The loop of [add_physical_item] rewrites the record of the device
    and nothing else. *)
Lemma copy_loop_devices instance item name record ks :
  ∀ s target,
    legacy_record s instance item = Ok record →
    Forall (fun k => is_Some (get k record)) ks →
    get name (devices s) = Some target →
    for_each ks (fun s_item =>
      v ← old_top_field instance item s_item;
      if is_none v then mret tt
      else
        v' ← old_top_field instance item s_item;
        set_device_field name s_item v') s
    = (Ok tt,
       with_devices
         (set name (copy_fields id record ks target) (devices s)) s).
Proof.
  induction ks as [|k ks IH]; intros s target Hrec Hall Hget.
  - simpl. rewrite (set_id _ _ _ Hget). by rewrite with_devices_id.
  - apply Forall_cons in Hall as [[v Hv] Hall].
    rewrite copy_fields_cons. unfold copy_step, non_null. rewrite Hv.
    cbn [for_each]. rewrite bind_run.
    rewrite (bind_Ok _ _ _ _ _ (old_top_field_run _ _ _ _ _ _ Hrec Hv)).
    destruct (is_none v).
    + cbn [mret M_ret]. by apply IH.
    + rewrite (bind_Ok _ _ _ _ _ (old_top_field_run _ _ _ _ _ _ Hrec Hv)).
      rewrite (set_device_field_run _ _ _ _ _ Hget).
      rewrite (IH _ (set k v target)); [|done|done|apply get_set_eq].
      cbn [devices with_devices]. by rewrite set_set.
Qed.

(** The loop of [add_conf_item] builds the local record and does not
    touch the object. *)
Lemma copy_loop_conf instance item record ks :
  ∀ s target,
    legacy_record s instance item = Ok record →
    Forall (fun k => is_Some (get k record)) ks →
    for_fold ks target (fun tmp_conf s_item =>
      v ← old_top_field instance item s_item;
      if is_none v then mret tmp_conf
      else
        v' ← old_top_field instance item s_item;
        mret (set s_item v' tmp_conf)) s
    = (Ok (copy_fields id record ks target), s).
Proof.
  induction ks as [|k ks IH]; intros s target Hrec Hall; [done|].
  apply Forall_cons in Hall as [[v Hv] Hall].
  rewrite copy_fields_cons. unfold copy_step, non_null. rewrite Hv.
  cbn [for_fold]. rewrite bind_run.
  rewrite (bind_Ok _ _ _ _ _ (old_top_field_run _ _ _ _ _ _ Hrec Hv)).
  destruct (is_none v).
  - cbn [mret M_ret]. by apply IH.
  - rewrite (bind_Ok _ _ _ _ _ (old_top_field_run _ _ _ _ _ _ Hrec Hv)).
    cbn [mret M_ret]. by apply IH.
Qed.

(** The loop of [add_artwork_item] rewrites the record of the item and
    nothing else. *)
Lemma copy_loop_artwork instance item item_type item_id record ks :
  ∀ s group target,
    legacy_record s instance item = Ok record →
    Forall (fun k => is_Some (get k record)) ks →
    get item_type (artwork s) = Some group →
    get item_id group = Some target →
    for_each ks (fun s_item =>
      v ← old_top_field instance item s_item;
      if is_none v then mret tt
      else
        s_detail ← old_top_field instance item s_item;
        set_artwork_field item_type item_id s_item
          (artwork_value item_type s_detail)) s
    = (Ok tt,
       with_artwork
         (set item_type
            (set item_id
               (copy_fields (artwork_value item_type) record ks target)
               group)
            (artwork s)) s).
Proof.
  induction ks as [|k ks IH]; intros s group target Hrec Hall Hgroup Hget.
  - simpl. rewrite (set_id _ _ _ Hget), (set_id _ _ _ Hgroup).
    by rewrite with_artwork_id.
  - apply Forall_cons in Hall as [[v Hv] Hall].
    rewrite copy_fields_cons. unfold copy_step, non_null. rewrite Hv.
    cbn [for_each]. rewrite bind_run.
    rewrite (bind_Ok _ _ _ _ _ (old_top_field_run _ _ _ _ _ _ Hrec Hv)).
    destruct (is_none v).
    + cbn [mret M_ret]. by eapply IH.
    + rewrite (bind_Ok _ _ _ _ _ (old_top_field_run _ _ _ _ _ _ Hrec Hv)).
      assert (set_artwork_field item_type item_id k
                (artwork_value item_type v) s
              = (Ok tt,
                 with_artwork
                   (set item_type
                      (set item_id
                         (set k (artwork_value item_type v) target) group)
                      (artwork s)) s)) as ->.
      { unfold set_artwork_field, getitem. run_unfold.
        by rewrite Hgroup, Hget. }
      erewrite IH; [|done|done|apply get_set_eq|apply get_set_eq].
      cbn [artwork with_artwork]. by rewrite !set_set.
Qed.

(** ** What the copying loops leave in the target *)

Lemma get_copy_step f record target k j :
  get j (copy_step f record target k)
  = if decide (j = k)
    then match non_null (get k record) with
         | Some v => Some (f v)
         | None => get j target
         end
    else get j target.
Proof.
  unfold copy_step. destruct (non_null (get k record)).
  - apply get_set.
  - by case_decide.
Qed.

Lemma get_copy_fields f record ks :
  ∀ target j,
    get j (copy_fields f record ks target)
    = if decide (j ∈ ks)
      then match non_null (get j record) with
           | Some v => Some (f v)
           | None => get j target
           end
      else get j target.
Proof.
  induction ks as [|k ks IH]; intros target j.
  - rewrite decide_False by apply not_elem_of_nil. done.
  - rewrite copy_fields_cons, IH, get_copy_step.
    destruct (decide (j = k)) as [->|Hne].
    + rewrite (decide_True (P := k ∈ k :: ks)) by apply list_elem_of_here.
      case_decide; [|done]. by destruct (non_null (get k record)).
    + destruct (decide (j ∈ ks)) as [Hin|Hnin].
      * rewrite decide_True by (by apply list_elem_of_further). done.
      * rewrite decide_False; [done|].
        rewrite elem_of_cons. tauto.
Qed.

(** After a copy over all the sorted keys, a field of the target is the
    non-null field of the legacy record when there is one and the old
    field of the target otherwise. *)
Lemma get_copy_sorted f record target j :
  get j (copy_fields f record (sorted record) target)
  = match non_null (get j record) with
    | Some v => Some (f v)
    | None => get j target
    end.
Proof.
  rewrite get_copy_fields. case_decide as Hin; [done|].
  rewrite elem_of_sorted, <-get_is_Some, <-not_eq_None_Some in Hin.
  apply dec_stable in Hin. by rewrite Hin.
Qed.

(** Copying into a target whose keys are increasing and below the keys
    still to come leaves the keys increasing. *)
Lemma keys_copy_fields_sorted f record ks :
  ∀ target,
    StronglySorted String.le ks →
    StronglySorted (strict String.le) (keys target) →
    (∀ j k, j ∈ keys target → k ∈ ks → String.le j k) →
    StronglySorted (strict String.le)
      (keys (copy_fields f record ks target)).
Proof.
  induction ks as [|k ks IH]; intros target Hks Htarget Hbelow; [done|].
  apply StronglySorted_cons in Hks as [Hk Hks].
  rewrite Forall_forall in Hk.
  rewrite copy_fields_cons. apply IH; [done|..].
  - unfold copy_step. destruct (non_null (get k record)); [|done].
    destruct (decide (k ∈ keys target)) as [Hin|Hnin].
    + by rewrite keys_set_old.
    + rewrite keys_set_new by done. apply StronglySorted_app_2.
      * intros j k' Hj ->%list_elem_of_singleton.
        apply strict_spec_alt. split.
        -- apply Hbelow; [done|apply list_elem_of_here].
        -- by intros ->.
      * done.
      * repeat constructor.
  - intros j k' Hj Hk'. unfold copy_step in Hj.
    assert (j ∈ keys target ∨ j = k) as [Hin| ->].
    { destruct (non_null (get k record)); [|by left].
      destruct (decide (k ∈ keys target)) as [Hin|Hnin].
      - rewrite keys_set_old in Hj by done. by left.
      - rewrite keys_set_new in Hj by done.
        apply elem_of_app in Hj as [?| ->%list_elem_of_singleton]; auto. }
    + apply Hbelow; [done|by apply list_elem_of_further].
    + by apply Hk.
Qed.

Lemma keys_copy_sorted f record :
  StronglySorted (strict String.le)
    (keys (copy_fields f record (sorted record) [])).
Proof.
  apply keys_copy_fields_sorted.
  - apply (StronglySorted_merge_sort _).
  - constructor.
  - by intros j k ?%elem_of_nil.
Qed.

(** ** add_conf_item, in one step *)

Lemma add_conf_item_run instance item s record :
  legacy_record s instance item = Ok record →
  add_conf_item instance item s
  = (Ok tt,
     let c := (conf s ++ [copy_fields id record (sorted record) []])%list in
     with_hv_id (Z.of_nat (length c) - 1) (with_conf c s)).
Proof.
  intros Hrec. unfold add_conf_item.
  rewrite (bind_Ok _ _ _ record s) by (by rewrite old_top_item_run, Hrec).
  rewrite (bind_Ok _ _ _ _ _
             (copy_loop_conf _ _ _ _ _ _ Hrec (sorted_present record))).
  reflexivity.
Qed.

Lemma add_conf_item_raise instance item s e :
  legacy_record s instance item = Raise e →
  add_conf_item instance item s = (Raise e, s).
Proof.
  intros Hrec. unfold add_conf_item.
  by rewrite (bind_Raise _ _ _ e s) by (by rewrite old_top_item_run, Hrec).
Qed.

(** ** add_physical_item, in two steps *)

Lemma add_physical_item_typename_raise T instance item s e :
  device_typename item = Raise e →
  add_physical_item T instance item s = (Raise e, s).
Proof.
  intros Hty. unfold add_physical_item.
  by rewrite (bind_Raise _ _ _ e s) by (unfold lift; by rewrite Hty).
Qed.

Lemma set_device_field_fresh name field v s record :
  set_device_field name field v
    (with_devices (set name record (devices s)) s)
  = (Ok tt, with_devices (set name (set field v record) (devices s)) s).
Proof.
  rewrite (set_device_field_run _ _ _ _ record) by apply get_set_eq.
  cbn [devices with_devices]. by rewrite set_set.
Qed.

Lemma add_physical_item_stage T instance item s name dt ty record :
  device_typename item = Ok (name, dt) →
  get "type" dt = Some ty →
  legacy_record s instance item = Ok record →
  add_physical_item T instance item s
  = model_stage T instance name
      (with_devices (set name (copied_record s ty record) (devices s)) s).
Proof.
  intros Hty Hdt Hrec. unfold add_physical_item.
  rewrite (bind_Ok _ _ _ (name, dt) s) by (unfold lift; by rewrite Hty).
  rewrite (bind_Ok _ _ _ tt (with_devices (set name [] (devices s)) s))
    by reflexivity.
  rewrite (bind_Ok _ _ _ (hv_id s) (with_devices (set name [] (devices s)) s))
    by reflexivity.
  rewrite (bind_Ok _ _ _ _ _ (set_device_field_fresh _ _ _ _ _)).
  rewrite (bind_Ok (gets nid) _ (with_devices _ s) (nid s) _ eq_refl).
  rewrite (bind_Ok _ _ _ _ _ (set_device_field_fresh _ _ _ _ _)).
  rewrite (bind_Ok (lift (getitem dt "type")) _ _ ty _)
    by (unfold lift, getitem; by rewrite Hdt).
  rewrite (bind_Ok _ _ _ _ _ (set_device_field_fresh _ _ _ _ _)).
  change (set "type" (PStr ty)
            (set "node_id" (PInt (nid s)) (set "hv_id" (PInt (hv_id s)) [])))
    with (base_record s ty).
  set (s0 := with_devices (set name (base_record s ty) (devices s)) s).
  assert (legacy_record s0 instance item = Ok record) as Hrec0 by done.
  rewrite (bind_Ok _ _ _ record s0) by (by rewrite old_top_item_run, Hrec0).
  rewrite (bind_Ok _ _ _ _ _
             (copy_loop_devices _ _ name _ _ s0 (base_record s ty) Hrec0
                (sorted_present record) (get_set_eq _ _ _))).
  unfold s0. cbn [devices with_devices]. rewrite set_set.
  reflexivity.
Qed.

Lemma add_physical_item_record_raise T instance item s name dt ty e :
  device_typename item = Ok (name, dt) →
  get "type" dt = Some ty →
  legacy_record s instance item = Raise e →
  add_physical_item T instance item s
  = (Raise e, with_devices (set name (base_record s ty) (devices s)) s).
Proof.
  intros Hty Hdt Hrec. unfold add_physical_item.
  rewrite (bind_Ok _ _ _ (name, dt) s) by (unfold lift; by rewrite Hty).
  rewrite (bind_Ok _ _ _ tt (with_devices (set name [] (devices s)) s))
    by reflexivity.
  rewrite (bind_Ok _ _ _ (hv_id s) (with_devices (set name [] (devices s)) s))
    by reflexivity.
  rewrite (bind_Ok _ _ _ _ _ (set_device_field_fresh _ _ _ _ _)).
  rewrite (bind_Ok (gets nid) _ (with_devices _ s) (nid s) _ eq_refl).
  rewrite (bind_Ok _ _ _ _ _ (set_device_field_fresh _ _ _ _ _)).
  rewrite (bind_Ok (lift (getitem dt "type")) _ _ ty _)
    by (unfold lift, getitem; by rewrite Hdt).
  rewrite (bind_Ok _ _ _ _ _ (set_device_field_fresh _ _ _ _ _)).
  change (set "type" (PStr ty)
            (set "node_id" (PInt (nid s)) (set "hv_id" (PInt (hv_id s)) [])))
    with (base_record s ty).
  set (s0 := with_devices (set name (base_record s ty) (devices s)) s).
  assert (legacy_record s0 instance item = Raise e) as Hrec0 by done.
  by rewrite (bind_Raise _ _ _ e s0) by (by rewrite old_top_item_run, Hrec0).
Qed.

(** The second step, on a state where the device has its record. *)
Lemma model_stage_run T instance name s device tyv :
  get name (devices s) = Some device →
  get "type" device = Some tyv →
  model_stage T instance name s
  = if bool_decide (instance ≠ "GNS3-DATA") && eq_str tyv "Router"
    then
      match
        match get "model" device with
        | None => conf_model s
        | Some m => model_transform T m
        end
      with
      | Ok m' =>
          (Ok tt,
           with_nid (nid s + 1)
             (with_devices (set name (set "model" m' device) (devices s)) s))
      | Raise e => (Raise e, s)
      end
    else (Ok tt, with_nid (nid s + 1) s).
Proof.
  intros Hdev Hty. unfold model_stage.
  destruct (bool_decide (instance ≠ "GNS3-DATA")); cbn [andb].
  - rewrite (bind_Ok _ _ _ (eq_str tyv "Router") s).
    2:{ rewrite (bind_Ok _ _ _ tyv s); [done|].
        rewrite (get_device_field_run _ _ _ _ Hdev).
        unfold getitem. by rewrite Hty. }
    destruct (eq_str tyv "Router"); [|done].
    rewrite bind_run. rewrite (bind_Ok _ _ _ _ _ (get_device_run _ _ _ Hdev)).
    unfold contains. destruct (get "model" device) as [m|] eqn:Hm; cbn [negb].
    + rewrite (bind_Ok _ _ _ m s).
      2:{ rewrite (get_device_field_run _ _ _ _ Hdev).
          unfold getitem. by rewrite Hm. }
      rewrite bind_run. unfold lift at 1.
      destruct (model_transform T m) as [m'|e]; [|done].
      by rewrite (set_device_field_run _ _ _ _ _ Hdev).
    + rewrite (bind_Ok (gets conf) _ s (conf s) s eq_refl).
      rewrite (bind_Ok (gets hv_id) _ s (hv_id s) s eq_refl).
      rewrite bind_run. unfold lift at 1. unfold conf_model.
      destruct (list_getitem (conf s) (hv_id s)) as [block|e];
        cbn [mbind result_bind]; [|done].
      rewrite bind_run. unfold lift at 1.
      destruct (getitem block "model") as [m|e]; [|done].
      by rewrite (set_device_field_run _ _ _ _ _ Hdev).
  - done.
Qed.

(** ** device_typename *)

Lemma split_cons sep s : ∃ w ws, split sep s = w :: ws.
Proof.
  induction s as [|c s (w & ws & IH)]; simpl; [by eauto|].
  case_decide; [by eauto|]. rewrite IH. by eauto.
Qed.

Lemma first_token_total item : ∃ tag, first_token item = Ok tag.
Proof.
  unfold first_token. destruct (split_cons space item) as (w & ws & ->).
  exists w. unfold list_getitem. cbn zeta.
  destruct (decide (0 < 0)) as [?|_]; [lia|].
  rewrite decide_True; [done|]. cbn [length]. lia.
Qed.

(** Every entry of the table has its ['from'] and its ['type']. *)
Lemma dev_type_entry tag entry :
  get tag dev_type = Some entry →
  get "from" entry = Some tag ∧ ∃ ty, get "type" entry = Some ty.
Proof.
  unfold dev_type. simpl.
  repeat (case_decide; [intros [= <-]; subst; split; [done|by eauto]|]).
  done.
Qed.

Lemma device_typename_inv item name entry :
  device_typename item = Ok (name, entry) →
  ∃ tag,
    first_token item = Ok tag ∧ get tag dev_type = Some entry
    ∧ name = replace (tag +:+ " ") "" item.
Proof.
  unfold device_typename. intros H.
  destruct (first_token item) as [tag|]; [|done]. cbn in H.
  unfold getitem in H.
  destruct (get tag dev_type) as [entry'|] eqn:Hentry; [|done]. cbn in H.
  destruct (dev_type_entry _ _ Hentry) as [Hfrom _].
  rewrite Hfrom in H. cbn in H. injection H as <- <-. by eauto.
Qed.

Lemma device_typename_type item name entry :
  device_typename item = Ok (name, entry) →
  ∃ ty, get "type" entry = Some ty.
Proof.
  intros (tag & _ & Hentry & _)%device_typename_inv.
  by apply dev_type_entry in Hentry as [_ ?].
Qed.

(** ** add_physical_item, as one equation *)

Lemma get_type_copied s ty record :
  get "type" (copied_record s ty record)
  = Some (default (PStr ty) (non_null (get "type" record))).
Proof.
  unfold copied_record. rewrite get_copy_sorted.
  by destruct (non_null (get "type" record)).
Qed.

Lemma get_model_copied s ty record :
  get "model" (copied_record s ty record) = non_null (get "model" record).
Proof.
  unfold copied_record. rewrite get_copy_sorted.
  by destruct (non_null (get "model" record)).
Qed.

Lemma add_physical_item_run T instance item s name entry ty record :
  device_typename item = Ok (name, entry) →
  get "type" entry = Some ty →
  legacy_record s instance item = Ok record →
  add_physical_item T instance item s
  = let device := copied_record s ty record in
    let tyv := default (PStr ty) (non_null (get "type" record)) in
    if bool_decide (instance ≠ "GNS3-DATA") && eq_str tyv "Router"
    then
      match
        match non_null (get "model" record) with
        | None => conf_model s
        | Some m => model_transform T m
        end
      with
      | Ok m' =>
          (Ok tt,
           with_nid (nid s + 1)
             (with_devices (set name (set "model" m' device) (devices s)) s))
      | Raise e => (Raise e, with_devices (set name device (devices s)) s)
      end
    else
      (Ok tt,
       with_nid (nid s + 1) (with_devices (set name device (devices s)) s)).
Proof.
  intros Hty Hentry Hrec.
  rewrite (add_physical_item_stage _ _ _ _ _ _ _ _ Hty Hentry Hrec).
  rewrite (model_stage_run T instance name
             (with_devices
                (set name (copied_record s ty record) (devices s)) s)
             (copied_record s ty record) _
             (get_set_eq _ _ _) (get_type_copied _ _ _)).
  rewrite get_model_copied. cbn zeta.
  destruct (_ && _); [|done].
  change (conf_model (with_devices _ s)) with (conf_model s).
  destruct (match non_null (get "model" record) with
            | Some m => _ | None => _ end); [|done].
  cbn [devices with_devices nid]. by rewrite set_set.
Qed.

(** ** Sequences of calls *)

Lemma run_cons T c cs s s' :
  run T (c :: cs) s = (Ok tt, s') →
  ∃ s1, do_call T c s = (Ok tt, s1) ∧ run T cs s1 = (Ok tt, s').
Proof.
  unfold run. cbn [for_each]. rewrite bind_run.
  destruct (do_call T c s) as [[[]|e] s1]; [|done]. by eauto.
Qed.

Lemma run_invariant T (P : LegacyTopology → Prop) :
  (∀ c s s', do_call T c s = (Ok tt, s') → P s → P s') →
  ∀ cs s s', run T cs s = (Ok tt, s') → P s → P s'.
Proof.
  intros Hstep. induction cs as [|c cs IH]; intros s s' Hrun HP.
  - by injection Hrun as <-.
  - apply run_cons in Hrun as (s1 & Hc & Hrun). eauto.
Qed.

(** No call writes to the legacy topology. *)
Lemma do_call_old_top T c : keeps old_top (do_call T c).
Proof.
  destruct c; simpl.
  - by apply add_artwork_item_keeps.
  - by apply add_conf_item_keeps.
  - by apply add_physical_item_keeps.
Qed.

Lemma run_old_top T cs s s' :
  run T cs s = (Ok tt, s') → old_top s' = old_top s.
Proof.
  intros Hrun.
  apply (run_invariant T (fun x => old_top x = old_top s) ) with cs s;
    [|done..].
  intros c x x' Hc <-. pose proof (do_call_old_top T c x) as H.
  by rewrite Hc in H.
Qed.

(** The artwork keeps its three categories. *)
Lemma run_categories T cs secs top s :
  run T cs (init secs top) = (Ok tt, s) →
  keys (artwork s) = ["SHAPE"; "NOTE"; "PIXMAP"].
Proof.
  intros Hrun.
  apply (run_invariant T
           (fun x => keys (artwork x) = ["SHAPE"; "NOTE"; "PIXMAP"]))
    with cs (init secs top); [|done..].
  intros c x x' Hc <-.
  assert (keeps (fun s => keys (artwork s)) (do_call T c)) as H.
  { destruct c; simpl.
    - apply add_artwork_item_keeps_categories.
    - by apply add_conf_item_keeps.
    - by apply add_physical_item_keeps. }
  specialize (H x). by rewrite Hc in H.
Qed.

(** ** A call of add_physical_item that returns *)

Lemma get_copied s ty record k :
  get k (copied_record s ty record)
  = match non_null (get k record) with
    | Some v => Some v
    | None => get k (base_record s ty)
    end.
Proof. unfold copied_record. by rewrite get_copy_sorted. Qed.

Lemma add_physical_item_Ok T instance item s s' :
  add_physical_item T instance item s = (Ok tt, s') →
  ∃ name entry ty record device,
    device_typename item = Ok (name, entry)
    ∧ get "type" entry = Some ty
    ∧ legacy_record s instance item = Ok record
    ∧ s' = with_nid (nid s + 1)
             (with_devices (set name device (devices s)) s)
    ∧ ∀ k, k ≠ "model" → get k device = get k (copied_record s ty record).
Proof.
  intros Hadd.
  destruct (device_typename item) as [[name entry]|e] eqn:Hty.
  2:{ by rewrite (add_physical_item_typename_raise _ _ _ _ _ Hty) in Hadd. }
  destruct (device_typename_type _ _ _ Hty) as [ty Hentry].
  destruct (legacy_record s instance item) as [record|e] eqn:Hrec.
  2:{ by rewrite (add_physical_item_record_raise _ _ _ _ _ _ _ _
                    Hty Hentry Hrec) in Hadd. }
  rewrite (add_physical_item_run _ _ _ _ _ _ _ _ Hty Hentry Hrec) in Hadd.
  cbn zeta in Hadd. exists name, entry, ty, record.
  destruct (_ && _).
  - destruct (match non_null (get "model" record) with
              | Some m => _ | None => _ end) as [m'|e]; [|done].
    injection Hadd as <-. eexists. repeat split; try done.
    intros k Hk. by rewrite get_set_ne.
  - injection Hadd as <-. eexists. by repeat split.
Qed.

Lemma device_field_added s name device n field :
  device_field
    (with_nid n (with_devices (set name device (devices s)) s)) name field
  = get field device.
Proof.
  unfold device_field. cbn [devices with_nid with_devices].
  by rewrite get_set_eq.
Qed.

(** ** C1: the hv_id of a device *)

Lemma do_call_cursor_ok T c s s' :
  do_call T c s = (Ok tt, s') → cursor_ok s → cursor_ok s'.
Proof.
  unfold cursor_ok. intros Hc Hs. destruct c as [i it|i it|i it]; simpl in Hc.
  - pose proof (add_artwork_item_keeps conf i it (fun _ _ => eq_refl) s) as H1.
    pose proof (add_artwork_item_keeps hv_id i it (fun _ _ => eq_refl) s) as H2.
    rewrite Hc in H1, H2. simpl in *. by rewrite H1, H2.
  - destruct (legacy_record s i it) as [record|e] eqn:Hrec.
    + rewrite (add_conf_item_run _ _ _ _ Hrec) in Hc. injection Hc as <-.
      cbn [hv_id conf with_hv_id with_conf]. rewrite length_app. simpl. lia.
    + by rewrite (add_conf_item_raise _ _ _ _ Hrec) in Hc.
  - pose proof (add_physical_item_keeps conf (fun _ _ => eq_refl)
                  (fun _ _ => eq_refl) T i it s) as H1.
    pose proof (add_physical_item_keeps hv_id (fun _ _ => eq_refl)
                  (fun _ _ => eq_refl) T i it s) as H2.
    rewrite Hc in H1, H2. simpl in *. by rewrite H1, H2.
Qed.

Lemma run_cursor_ok T cs secs top s :
  run T cs (init secs top) = (Ok tt, s) → cursor_ok s.
Proof.
  intros Hrun.
  apply (run_invariant T cursor_ok (do_call_cursor_ok T) _ _ _ Hrun).
  reflexivity.
Qed.

(** C1, as stated, fails: a device added before any configuration block
    gets the initial cursor, 0, as its [hv_id], while [len(conf) - 1] is
    -1 at that moment. *)
Lemma hv_id_before_any_conf :
  cloud_added.1 = Ok tt
  ∧ conf cloud_added.2 = []
  ∧ device_field cloud_added.2 "C1" "hv_id" = Some (PInt 0)
  ∧ device_field cloud_added.2 "C1" "hv_id"
    ≠ Some (PInt (Z.of_nat (length (conf cloud_added.2)) - 1)).
Proof. repeat split; try reflexivity. discriminate. Qed.

(** The second way in which C1 fails: a legacy field named [hv_id]
    replaces the cursor in the device record. *)
Example hv_id_overwritten_by_legacy_field :
  pinned_added.1 = Ok tt
  ∧ Z.of_nat (length (conf pinned_added.2)) - 1 = 0
  ∧ device_field pinned_added.2 "R1" "hv_id" = Some (PStr "5").
Proof. repeat split; reflexivity. Qed.

(** C1, amended: in every sequence of calls, once a configuration block
    has been appended, a device whose legacy record has no non-null
    field named [hv_id] of its own is created with [hv_id] equal to
    [len(conf) - 1], the index of the block appended last; the call does
    not change [conf]. *)
Theorem device_hv_id_is_last_conf
    T secs top cs s instance item name entry s' :
  run T cs (init secs top) = (Ok tt, s) →
  conf s ≠ [] →
  device_typename item = Ok (name, entry) →
  (∀ record, legacy_record s instance item = Ok record →
             non_null (get "hv_id" record) = None) →
  add_physical_item T instance item s = (Ok tt, s') →
  conf s' = conf s
  ∧ device_field s' name "hv_id"
    = Some (PInt (Z.of_nat (length (conf s')) - 1)).
Proof.
  intros Hrun Hconf Hty Hfield Hadd.
  apply run_cursor_ok in Hrun. unfold cursor_ok in Hrun.
  apply add_physical_item_Ok in Hadd
    as (name' & entry' & ty & record & device & Hty' & _ & Hrec & -> & Hdev).
  rewrite Hty in Hty'. injection Hty' as <- <-.
  split; [done|].
  rewrite device_field_added, Hdev, get_copied, (Hfield _ Hrec) by done.
  cbn [conf with_nid with_devices]. simpl. do 2 f_equal.
  destruct (conf s); [done|]. simpl length in *. lia.
Qed.

Lemma device_hv_id_is_last_conf_witness :
  conf router_added.2 = conf conf_added.2
  ∧ device_field router_added.2 "R1" "hv_id"
    = Some (PInt (Z.of_nat (length (conf router_added.2)) - 1)).
Proof.
  apply (device_hv_id_is_last_conf sample_transform [] sample_top
           [AddConfItem "R1" "3600"] conf_added.2 "R1" "ROUTER R1"
           "R1" router_entry router_added.2).
  - reflexivity.
  - discriminate.
  - reflexivity.
  - intros record H. vm_compute in H. injection H as <-. reflexivity.
  - vm_compute. reflexivity.
Defined.

(** ** C2: the node_id of a device *)

Lemma count_physical_cons c cs :
  count_physical (c :: cs)
  = (if is_physical c then 1 else 0) + count_physical cs.
Proof.
  unfold count_physical. simpl. destruct (is_physical c); simpl length; lia.
Qed.

Lemma run_nid T cs :
  ∀ s s', run T cs s = (Ok tt, s') → nid s' = nid s + count_physical cs.
Proof.
  induction cs as [|c cs IH]; intros s s' Hrun.
  - injection Hrun as <-. unfold count_physical. simpl. lia.
  - apply run_cons in Hrun as (s1 & Hc & Hrun).
    rewrite (IH _ _ Hrun), count_physical_cons.
    destruct c as [i it|i it|i it]; simpl in *.
    + pose proof (add_artwork_item_keeps nid i it (fun _ _ => eq_refl) s) as H.
      rewrite Hc in H. simpl in H. lia.
    + pose proof (add_conf_item_keeps nid i it (fun _ _ => eq_refl)
                    (fun _ _ => eq_refl) s) as H.
      rewrite Hc in H. simpl in H. lia.
    + apply add_physical_item_Ok in Hc as (? & ? & ? & ? & ? & _ & _ & _ & -> & _).
      cbn [nid with_nid]. lia.
Qed.

(** C2, as stated, fails: the loop that copies the legacy record runs
    after [node_id] is written, so a legacy field named [node_id]
    replaces the number taken from the counter. *)
Lemma node_id_overwritten_by_legacy_field :
  numbered_added.1 = Ok tt
  ∧ device_field numbered_added.2 "C1" "node_id" = Some (PStr "7")
  ∧ device_field numbered_added.2 "C1" "node_id" ≠ Some (PInt 1).
Proof. repeat split; try reflexivity. discriminate. Qed.

(** C2, amended: in a run that starts from a new object, the call of
    [add_physical_item] that comes after k earlier ones finds the counter
    [nid] at k + 1 and leaves it at k + 2, so the counter takes the values
    1, 2, 3, ... in the order of the calls, whatever other calls come in
    between; the device gets k + 1 as its [node_id] provided its legacy
    record has no non-null field named [node_id] of its own. *)
Theorem node_id_counts_devices
    T secs top cs s instance item name entry s' :
  run T cs (init secs top) = (Ok tt, s) →
  device_typename item = Ok (name, entry) →
  (∀ record, legacy_record s instance item = Ok record →
             non_null (get "node_id" record) = None) →
  add_physical_item T instance item s = (Ok tt, s') →
  nid s = count_physical cs + 1
  ∧ nid s' = count_physical cs + 2
  ∧ device_field s' name "node_id" = Some (PInt (count_physical cs + 1)).
Proof.
  intros Hrun Hty Hfield Hadd.
  apply run_nid in Hrun. cbn [nid init] in Hrun.
  apply add_physical_item_Ok in Hadd
    as (name' & entry' & ty & record & device & Hty' & _ & Hrec & -> & Hdev).
  rewrite Hty in Hty'. injection Hty' as <- <-.
  split; [lia|]. split; [cbn [nid with_nid]; lia|].
  rewrite device_field_added, Hdev, get_copied, (Hfield _ Hrec) by done.
  simpl. do 2 f_equal. lia.
Qed.

Lemma node_id_counts_devices_witness :
  nid conf_added.2 = 0 + 1
  ∧ nid router_added.2 = 0 + 2
  ∧ device_field router_added.2 "R1" "node_id" = Some (PInt (0 + 1)).
Proof.
  apply (node_id_counts_devices sample_transform [] sample_top
           [AddConfItem "R1" "3600"] conf_added.2 "R1" "ROUTER R1"
           "R1" router_entry router_added.2).
  - reflexivity.
  - reflexivity.
  - intros record H. vm_compute in H. injection H as <-. reflexivity.
  - vm_compute. reflexivity.
Defined.

(** ** C3: the model of a router *)

(** C3, as stated, fails: the test at line 102 reads the field [type]
    of the device after the legacy record was copied over it, so a
    router whose legacy record has a field named [type] is not treated
    as a router and is left without a model. *)
Lemma router_with_type_field_has_no_model :
  device_typename "ROUTER R1" = Ok ("R1", router_entry)
  ∧ get "type" router_entry = Some "Router"
  ∧ typed_added.1 = Ok tt
  ∧ conf_model typed_added.2 = Ok (PStr "c3600")
  ∧ device_field typed_added.2 "R1" "type" = Some (PStr "dynamips")
  ∧ device_field typed_added.2 "R1" "model" = None.
Proof. repeat split; reflexivity. Qed.

(** C3, amended: when the instance is not ['GNS3-DATA'] and the field
    [type] of the device is ['Router'] after the legacy record is copied
    (the resolved type, unless the legacy record has a non-null field
    named [type]), the call either returns with the model of the device
    resolved or raises: without a non-null legacy model the model is
    [conf[hv_id]['model']], and the lookup error of that expression is
    raised if the block or its model is missing; with one, the model is
    its entry in [MODEL_TRANSFORM], and [KeyError] is raised for a name
    the table lacks.  An exception leaves [nid] as it was.  The scenario
    of the specification gives the model ['c3600']. *)
Theorem router_model_resolved T s instance item name entry ty record :
  instance ≠ "GNS3-DATA" →
  device_typename item = Ok (name, entry) →
  get "type" entry = Some ty →
  legacy_record s instance item = Ok record →
  eq_str (stored_type ty record) "Router" = true →
  (match non_null (get "model" record) with
   | None =>
       match conf_model s with
       | Ok m =>
           ∃ s', add_physical_item T instance item s = (Ok tt, s')
                 ∧ device_field s' name "model" = Some m
       | Raise e =>
           ∃ s', add_physical_item T instance item s = (Raise e, s')
                 ∧ nid s' = nid s
       end
   | Some (PStr model) =>
       match get model T with
       | Some m =>
           ∃ s', add_physical_item T instance item s = (Ok tt, s')
                 ∧ device_field s' name "model" = Some m
       | None =>
           ∃ s', add_physical_item T instance item s = (Raise KeyError, s')
                 ∧ nid s' = nid s
       end
   | Some _ =>
       ∃ e s', add_physical_item T instance item s = (Raise e, s')
               ∧ nid s' = nid s
   end)
  ∧ router_added.1 = Ok tt
  ∧ device_field router_added.2 "R1" "model" = Some (PStr "c3600").
Proof.
  intros Hinst Hty Hentry Hrec Hrouter.
  split; [|split; reflexivity].
  rewrite (add_physical_item_run _ _ _ _ _ _ _ _ Hty Hentry Hrec).
  cbn zeta. fold (stored_type ty record).
  rewrite bool_decide_eq_true_2, Hrouter by done. cbn [andb].
  destruct (non_null (get "model" record)) as [m|].
  - assert (∀ m', model_transform T m = Ok m' →
              ∃ s',
                (Ok tt,
                 with_nid (nid s + 1)
                   (with_devices
                      (set name (set "model" m' (copied_record s ty record))
                         (devices s)) s)) = (Ok tt, s')
                ∧ device_field s' name "model" = Some m') as Hok.
    { intros m' _. eexists. split; [done|].
      by rewrite device_field_added, get_set_eq. }
    destruct m as [|b|n|model|l|d]; simpl;
      try (by eexists _, _; split; [done|]).
    unfold getitem. destruct (get model T) as [m'|] eqn:Hm.
    + apply Hok. simpl. unfold getitem. by rewrite Hm.
    + by eexists.
  - destruct (conf_model s) as [m|e].
    + eexists. split; [done|].
      by rewrite device_field_added, get_set_eq.
    + by eexists.
Qed.

Lemma router_model_resolved_witness :
  ∃ s', add_physical_item sample_transform "R1" "ROUTER R1" conf_added.2
        = (Ok tt, s')
        ∧ device_field s' "R1" "model" = Some (PStr "c3600").
Proof.
  apply (proj1 (router_model_resolved sample_transform conf_added.2
                  "R1" "ROUTER R1" "R1" router_entry "Router"
                  [("model", PNone); ("x", PStr "10")]
                  ltac:(discriminate) eq_refl eq_refl eq_refl eq_refl)).
Defined.

(** ** C8: an unknown device type *)

Example dev_type_tags :
  keys dev_type
  = ["ROUTER"; "QEMU"; "VBOX"; "FRSW"; "ETHSW"; "Hub"; "ATMSW"; "ATMBR";
     "Cloud"].
Proof. reflexivity. Qed.

(** C8: when the first token of the item is none of the nine tags of the
    table, [device_typename] raises [KeyError], and [add_physical_item],
    which calls it first, raises the same error and leaves the object as
    it was: no device record is created. *)
Theorem device_typename_unknown_type item :
  (∀ tag, tag ∈ keys dev_type → first_token item ≠ Ok tag) →
  device_typename item = Raise KeyError
  ∧ ∀ T instance s,
      add_physical_item T instance item s = (Raise KeyError, s).
Proof.
  intros Hnot.
  assert (device_typename item = Raise KeyError) as Hraise.
  { destruct (first_token_total item) as [tag Htag].
    assert (get tag dev_type = None) as Hnone.
    { apply get_None. intros Hin. by apply (Hnot tag). }
    unfold device_typename. rewrite Htag. cbn [mbind result_bind].
    unfold getitem. by rewrite Hnone. }
  split; [done|]. intros T instance s.
  by apply add_physical_item_typename_raise.
Qed.

Lemma device_typename_unknown_type_witness :
  device_typename "SWITCH S1" = Raise KeyError
  ∧ ∀ T instance s,
      add_physical_item T instance "SWITCH S1" s = (Raise KeyError, s).
Proof.
  apply (device_typename_unknown_type "SWITCH S1").
  intros tag Hin Htag. vm_compute in Htag. injection Htag as <-.
  vm_compute in Hin. repeat (apply elem_of_cons in Hin as [Hin|Hin];
                             [discriminate Hin|]).
  by apply elem_of_nil in Hin.
Defined.

(** ** get_topology, as one equation *)

Lemma set_topology_key_run key v name inner :
  set_topology_key key v (assembled name inner)
  = Ok (assembled name (set key v inner)).
Proof. reflexivity. Qed.

Lemma put_run key v name inner :
  (if negb (is_none v)
   then set_topology_key key v (assembled name inner)
   else mret (assembled name inner))
  = Ok (assembled name (put key v inner)).
Proof. unfold put. by destruct (is_none v). Qed.

Lemma get_topology_run self :
  get_topology self
  = ellipse ← subscript (_shapes self) "ellipse";
    rectangle ← subscript (_shapes self) "rectangle";
    mret (PDict
      (assembled (_name self)
         (put "images" (_images self)
            (put "rectangles" rectangle
               (put "ellipses" ellipse
                  (put "notes" (_notes self)
                     (put "servers" (_servers self)
                        (put "nodes" (_nodes self)
                           (put "links" (_links self) []))))))))).
Proof.
  unfold get_topology. fold (assembled (_name self) []).
  repeat (rewrite put_run; cbn [mbind result_bind]).
  destruct (subscript (_shapes self) "ellipse") as [ellipse|]; [|done].
  cbn [mbind result_bind].
  repeat (rewrite put_run; cbn [mbind result_bind]).
  destruct (subscript (_shapes self) "rectangle") as [rectangle|]; [|done].
  cbn [mbind result_bind].
  repeat (rewrite put_run; cbn [mbind result_bind]).
  reflexivity.
Qed.

Lemma get_put key v inner k :
  get k (put key v inner)
  = if decide (k = key)
    then match optional v with Some w => Some w | None => get k inner end
    else get k inner.
Proof.
  unfold put, optional. destruct (is_none v).
  - by case_decide.
  - apply get_set.
Qed.

Lemma is_Some_get_put key v inner k :
  is_Some (get k (put key v inner)) → k = key ∨ is_Some (get k inner).
Proof. rewrite get_put. case_decide; auto. Qed.

(** ** C9: a missing shapes container *)

(** C9: with [shapes] left at [None], [get_topology] raises [TypeError]
    at line 318 and returns nothing; it returns only when [shapes] is a
    dictionary that has both the key ['ellipse'] and the key
    ['rectangle'], and it does return then, whatever their values. *)
Theorem get_topology_needs_shapes self :
  (_shapes self = PNone → get_topology self = Raise TypeError)
  ∧ (∀ topology, get_topology self = Ok topology →
       ∃ d e r, _shapes self = PDict d
                ∧ get "ellipse" d = Some e ∧ get "rectangle" d = Some r)
  ∧ (∀ d e r, _shapes self = PDict d →
       get "ellipse" d = Some e → get "rectangle" d = Some r →
       is_ok (get_topology self) = true).
Proof.
  rewrite get_topology_run. repeat split.
  - by intros ->.
  - intros topology H. destruct (_shapes self) as [| | | | |d]; try done.
    simpl in H. unfold getitem in H.
    destruct (get "ellipse" d) as [e|] eqn:He; [|done].
    destruct (get "rectangle" d) as [r|] eqn:Hr; [|done].
    by exists d, e, r.
  - intros d e r -> He Hr. simpl. unfold getitem. by rewrite He, Hr.
Qed.

Lemma get_topology_needs_shapes_witness :
  get_topology JSONTopology_init = Raise TypeError.
Proof.
  apply (proj1 (get_topology_needs_shapes JSONTopology_init)).
  reflexivity.
Defined.

(** ** C7: the assembled topology *)

(** C7: when [shapes] supplies both of its keys, [get_topology] returns
    a dictionary with [name], [resources_type] = ['local'], [type] =
    ['topology'] and [version] = ['1.0'] around the inner dictionary
    [topology]; each of the seven optional keys of the inner dictionary
    is absent when its source is [None] and holds the source itself
    otherwise, and the inner dictionary has no other key.  A new object
    has every field [None] but the servers, which are the list of the
    one server with host 127.0.0.1, id 1, local true and port 8000.  For
    a new object whose shapes are two empty lists the result has this
    list of servers, [ellipses] and [rectangles] empty, and no [nodes],
    [links], [notes] or [images]. *)
Theorem get_topology_spec self d e r :
  _shapes self = PDict d →
  get "ellipse" d = Some e →
  get "rectangle" d = Some r →
  (∃ inner,
     get_topology self
     = Ok (PDict
             [("name", _name self); ("resources_type", PStr "local");
              ("topology", PDict inner); ("type", PStr "topology");
              ("version", PStr "1.0")])
     ∧ get "links" inner = optional (_links self)
     ∧ get "nodes" inner = optional (_nodes self)
     ∧ get "servers" inner = optional (_servers self)
     ∧ get "notes" inner = optional (_notes self)
     ∧ get "ellipses" inner = optional e
     ∧ get "rectangles" inner = optional r
     ∧ get "images" inner = optional (_images self)
     ∧ ∀ k, is_Some (get k inner) →
            k ∈ ["links"; "nodes"; "servers"; "notes"; "ellipses";
                 "rectangles"; "images"])
  ∧ JSONTopology_init
    = {| _nodes := PNone; _links := PNone; _notes := PNone;
         _shapes := PNone; _images := PNone;
         _servers :=
           PList [PDict [("host", PStr "127.0.0.1"); ("id", PInt 1);
                         ("local", PBool true); ("port", PInt 8000)]];
         _name := PNone |}
  ∧ empty_shapes
    = {| _nodes := PNone; _links := PNone; _notes := PNone;
         _shapes := PDict [("ellipse", PList []); ("rectangle", PList [])];
         _images := PNone;
         _servers :=
           PList [PDict [("host", PStr "127.0.0.1"); ("id", PInt 1);
                         ("local", PBool true); ("port", PInt 8000)]];
         _name := PNone |}
  ∧ get_topology empty_shapes
    = Ok (PDict
            [("name", PNone); ("resources_type", PStr "local");
             ("topology",
              PDict
                [("servers",
                  PList [PDict [("host", PStr "127.0.0.1"); ("id", PInt 1);
                                ("local", PBool true);
                                ("port", PInt 8000)]]);
                 ("ellipses", PList []); ("rectangles", PList [])]);
             ("type", PStr "topology"); ("version", PStr "1.0")]).
Proof.
  intros Hshapes He Hr. split; [|repeat split; reflexivity].
  rewrite get_topology_run, Hshapes. simpl subscript. unfold getitem.
  rewrite He, Hr. cbn [mbind result_bind mret result_ret].
  eexists. split; [reflexivity|].
  repeat split.
  1-7: rewrite !get_put; simpl;
       match goal with |- context [optional ?v] => by destruct (optional v) end.
  intros k Hk.
  repeat (apply is_Some_get_put in Hk as [->|Hk];
          [repeat first [apply list_elem_of_here|apply list_elem_of_further]|]).
  by destruct Hk.
Qed.

Lemma get_topology_spec_witness :
  ∃ inner,
    get_topology empty_shapes
    = Ok (PDict
            [("name", PNone); ("resources_type", PStr "local");
             ("topology", PDict inner); ("type", PStr "topology");
             ("version", PStr "1.0")])
    ∧ get "servers" inner
      = Some (PList [PDict [("host", PStr "127.0.0.1"); ("id", PInt 1);
                            ("local", PBool true); ("port", PInt 8000)]])
    ∧ get "nodes" inner = None.
Proof.
  destruct (proj1 (get_topology_spec empty_shapes
                     [("ellipse", PList []); ("rectangle", PList [])]
                     (PList []) (PList []) eq_refl eq_refl eq_refl))
    as (inner & Hget & _ & Hnodes & Hservers & _).
  exists inner. by repeat split.
Defined.

(** ** C4: the name of a device *)

Lemma split_app_sep sep t s :
  has_char sep t = false →
  split sep (t +:+ String sep s) = t :: split sep s.
Proof.
  induction t as [|c t IH]; simpl.
  - intros _. by rewrite decide_True.
  - intros [Hc Ht]%orb_false_elim. apply bool_decide_eq_false in Hc.
    rewrite decide_False by done. by rewrite IH.
Qed.

Lemma first_token_tag tag name :
  has_char space tag = false →
  first_token (tag +:+ String space name) = Ok tag.
Proof.
  intros Htag. unfold first_token. by rewrite split_app_sep.
Qed.

Lemma prefix_app old s : String.prefix old (old +:+ s) = true.
Proof.
  induction old as [|a old IH]; simpl; [by destruct s|].
  destruct (Ascii.ascii_dec a a); [done|congruence].
Qed.

Lemma prefix_has_char c old s :
  has_char c old = true → has_char c s = false → String.prefix old s = false.
Proof.
  revert s. induction old as [|a old IH]; intros s; simpl; [done|].
  destruct s as [|b s]; [done|]. simpl.
  intros Hold [Hb Hs]%orb_false_elim.
  destruct (Ascii.ascii_dec a b) as [->|]; [|done].
  rewrite Hb in Hold. by apply IH.
Qed.

Lemma replace_go_skip old new t s :
  replace_go old new (String.length t) (t +:+ s) = replace_go old new 0 s.
Proof. induction t as [|a t IH]; simpl; [by destruct s|done]. Qed.

Lemma replace_go_absent c old new s :
  has_char c old = true → has_char c s = false → replace_go old new 0 s = s.
Proof.
  intros Hold. induction s as [|a s IH]; [done|]. intros Hs.
  cbn [replace_go]. rewrite (prefix_has_char c) by done.
  simpl in Hs. apply orb_false_elim in Hs as [_ Hs]. by rewrite IH.
Qed.

(** Replacing a leading [old] by the empty string leaves the rest of the
    string when a character of [old] does not occur in the rest. *)
Lemma replace_leading c old name :
  has_char c old = true → has_char c name = false →
  replace old "" (old +:+ name) = name.
Proof.
  intros Hold Hname. destruct old as [|a old]; [done|].
  unfold replace.
  change (String a old +:+ name) with (String a (old +:+ name)).
  cbn [replace_go].
  change (String a (old +:+ name)) with (String a old +:+ name).
  rewrite prefix_app. cbn [String.length]. rewrite Nat.sub_1_r. cbn [pred].
  rewrite replace_go_skip. cbn [String.append].
  by apply (replace_go_absent c).
Qed.

(** For a name without a space (and, more generally, a name in which
    the tag followed by a space does not occur), [device_typename]
    returns the name and the entry of the tag. *)
Lemma device_typename_plain_name tag entry name :
  get tag dev_type = Some entry →
  has_char space name = false →
  device_typename (tag +:+ String space name) = Ok (name, entry).
Proof.
  intros Hentry Hname.
  assert (has_char space tag = false) as Htag.
  { revert Hentry. unfold dev_type. simpl.
    repeat (case_decide; [by subst|]). done. }
  destruct (dev_type_entry _ _ Hentry) as [Hfrom _].
  unfold device_typename. rewrite first_token_tag by done.
  cbn [mbind result_bind]. unfold getitem. rewrite Hentry.
  cbn [mbind result_bind]. rewrite Hfrom. cbn [mbind result_bind mret result_ret].
  do 2 f_equal.
  assert (tag +:+ String space name = (tag +:+ " ") +:+ name) as ->.
  { clear. induction tag as [|a tag IH]; [done|].
    change (String a (tag +:+ String space name)
            = String a ((tag +:+ " ") +:+ name)).
    by rewrite IH. }
  apply (replace_leading space); [|done].
  clear. induction tag as [|a tag IH]; simpl; [done|].
  rewrite IH. apply orb_true_r.
Qed.

(** C4 holds for such names and fails for others: [str.replace]
    removes every occurrence of the tag followed by a space, not only
    the leading one, so the name [My Cloud 1] of a cloud comes back as
    [My 1]. *)
Theorem device_typename_strips_inner_occurrences :
  first_token "Cloud My Cloud 1" = Ok "Cloud"
  ∧ get "Cloud" dev_type = Some cloud_entry
  ∧ device_typename "Cloud My Cloud 1" = Ok ("My 1", cloud_entry)
  ∧ device_typename "Cloud My Cloud 1" ≠ Ok ("My Cloud 1", cloud_entry).
Proof. repeat split; try reflexivity. discriminate. Qed.

(** ** C6: artwork items *)

Lemma add_artwork_item_skip instance item s record :
  legacy_record s instance item = Ok record →
  contains "interface" record = true →
  add_artwork_item instance item s = (Ok tt, s).
Proof.
  intros Hrec Hif. unfold add_artwork_item.
  rewrite (bind_Ok _ _ _ record s) by (by rewrite old_top_item_run, Hrec).
  by rewrite Hif.
Qed.

Lemma add_artwork_item_run
    instance item s record item_type item_id group :
  legacy_record s instance item = Ok record →
  contains "interface" record = false →
  split space item = [item_type; item_id] →
  get item_type (artwork s) = Some group →
  add_artwork_item instance item s
  = (Ok tt,
     with_artwork
       (set item_type
          (set item_id
             (copy_fields (artwork_value item_type) record (sorted record) [])
             group)
          (artwork s)) s).
Proof.
  intros Hrec Hif Hsplit Hgroup. unfold add_artwork_item.
  rewrite (bind_Ok _ _ _ record s) by (by rewrite old_top_item_run, Hrec).
  rewrite Hif, Hsplit.
  set (s0 := with_artwork
               (set item_type (set item_id [] group) (artwork s)) s).
  rewrite (bind_Ok _ _ _ tt s0).
  2:{ unfold set_artwork_item, getitem. run_unfold. by rewrite Hgroup. }
  assert (legacy_record s0 instance item = Ok record) as Hrec0 by done.
  rewrite (bind_Ok _ _ _ record s0) by (by rewrite old_top_item_run, Hrec0).
  rewrite (copy_loop_artwork _ _ item_type item_id _ _ s0
             (set item_id [] group) [] Hrec0 (sorted_present record)
             (get_set_eq _ _ _) (get_set_eq _ _ _)).
  unfold s0. cbn [artwork with_artwork]. by rewrite !set_set.
Qed.

(** Outside the format of C6 the call raises before it writes: an item
    that does not split into two tokens cannot be unpacked, and a
    category that is not in the artwork cannot be looked up. *)
Lemma add_artwork_item_bad_item instance item s record :
  legacy_record s instance item = Ok record →
  contains "interface" record = false →
  (∀ item_type item_id, split space item ≠ [item_type; item_id]) →
  add_artwork_item instance item s = (Raise ValueError, s).
Proof.
  intros Hrec Hif Hsplit. unfold add_artwork_item.
  rewrite (bind_Ok _ _ _ record s) by (by rewrite old_top_item_run, Hrec).
  rewrite Hif.
  destruct (split space item) as [|a [|b [|c l]]] eqn:Hs; try done.
  by destruct (Hsplit a b).
Qed.

Lemma add_artwork_item_bad_category
    instance item s record item_type item_id :
  legacy_record s instance item = Ok record →
  contains "interface" record = false →
  split space item = [item_type; item_id] →
  get item_type (artwork s) = None →
  add_artwork_item instance item s = (Raise KeyError, s).
Proof.
  intros Hrec Hif Hsplit Hnone. unfold add_artwork_item.
  rewrite (bind_Ok _ _ _ record s) by (by rewrite old_top_item_run, Hrec).
  rewrite Hif, Hsplit.
  rewrite (bind_Raise _ _ _ KeyError s); [done|].
  unfold set_artwork_item, getitem. run_unfold. by rewrite Hnone.
Qed.

Lemma append_assoc u v w : (u +:+ v) +:+ w = u +:+ (v +:+ w).
Proof.
  induction u as [|x u IH]; [done|].
  change (String x ((u +:+ v) +:+ w) = String x (u +:+ (v +:+ w))).
  by rewrite IH.
Qed.

Lemma replace_go_app_absent c old new a s :
  has_char c a = false →
  replace_go (String c old) new 0 (a +:+ s)
  = a +:+ replace_go (String c old) new 0 s.
Proof.
  induction a as [|x a IH]; [done|]. simpl has_char.
  intros [Hx Ha]%orb_false_elim. apply bool_decide_eq_false in Hx.
  change (replace_go (String c old) new 0 (String x (a +:+ s))
          = String x (a +:+ replace_go (String c old) new 0 s)).
  cbn [replace_go String.prefix].
  destruct (Ascii.ascii_dec c x) as [->|_]; [done|]. by rewrite IH.
Qed.

Lemma replace_go_match old new s :
  old ≠ "" →
  replace_go old new 0 (old +:+ s) = new +:+ replace_go old new 0 s.
Proof.
  intros Hold. destruct old as [|a old]; [done|].
  change (String a old +:+ s) with (String a (old +:+ s)).
  cbn [replace_go].
  change (String a (old +:+ s)) with (String a old +:+ s).
  rewrite prefix_app. cbn [String.length]. rewrite Nat.sub_1_r. cbn [pred].
  by rewrite replace_go_skip.
Qed.

(** C6: with an [interface] field in the legacy record the call returns
    and leaves the whole object as it was.  Without one, for an item of
    two tokens [item_type] and [item_id] whose category is in the
    artwork, the call returns and changes nothing but
    [artwork[item_type][item_id]], which is a new record: its fields are
    the non-null fields of the legacy record, each stored through the
    value transform, and they come in increasing order of their names.
    The transform leaves a value that is not a string alone; on a string
    it replaces backslash-n by a line feed when the category is
    ['NOTE'], then strips one pair of surrounding double quotes.  The
    replaced sequence is the two characters 92 and 110 and what replaces
    it is the one character 10: a string without a backslash is left as
    it is, and after a part without a backslash the two characters give
    a line feed and the rest is replaced in the same way.  The note of
    the scenario, whose legacy text is a double quote, hello, backslash,
    n, world and a double quote, is stored as hello, line feed, world. *)
Theorem add_artwork_item_spec instance item s record :
  legacy_record s instance item = Ok record →
  (contains "interface" record = true →
   add_artwork_item instance item s = (Ok tt, s))
  ∧ (contains "interface" record = false →
     ∀ item_type item_id group,
       split space item = [item_type; item_id] →
       get item_type (artwork s) = Some group →
       ∃ fields,
         add_artwork_item instance item s
         = (Ok tt,
            with_artwork
              (set item_type (set item_id fields group) (artwork s)) s)
         ∧ (∀ k, get k fields
                 = artwork_value item_type <$> non_null (get k record))
         ∧ StronglySorted (strict String.le) (keys fields))
  ∧ (∀ item_type t,
       artwork_value item_type (PStr t)
       = PStr (strip_quotes
                 (if bool_decide (item_type = "NOTE")
                  then replace escaped_newline newline t
                  else t)))
  ∧ (∀ item_type v, is_str v = false → artwork_value item_type v = v)
  ∧ escaped_newline = String "092"%char (String "n"%char "")
  ∧ newline = String "010"%char ""
  ∧ (∀ t, has_char "092"%char t = false →
       artwork_value "NOTE" (PStr t) = PStr (strip_quotes t))
  ∧ (∀ a b, has_char "092"%char a = false →
       replace escaped_newline newline
         (a +:+ String "092"%char (String "n"%char b))
       = a +:+ String "010"%char (replace escaped_newline newline b))
  ∧ (∀ a b,
       has_char "092"%char a = false → has_char "092"%char b = false →
       artwork_value "NOTE"
         (PStr (String "034"%char
                  (a +:+ String "092"%char
                           (String "n"%char (b +:+ String "034"%char "")))))
       = PStr (a +:+ String "010"%char b))
  ∧ legacy_record (init [] sample_top) "GNS3-DATA" "NOTE 1"
    = Ok [("text",
           PStr (String "034"%char
                   ("hello"
                    +:+ String "092"%char
                          (String "n"%char
                             ("world" +:+ String "034"%char "")))))]
  ∧ note_added
    = (Ok tt,
       with_artwork
         [("SHAPE", []);
          ("NOTE",
           [("1", [("text", PStr ("hello" +:+ String "010"%char "world"))])]);
          ("PIXMAP", [])]
         (init [] sample_top)).
Proof.
  intros Hrec.
  assert (∀ t, has_char "092"%char t = false →
            replace escaped_newline newline t = t) as Habsent.
  { intros t Ht. by apply (replace_go_absent "092"%char). }
  assert (∀ a b, has_char "092"%char a = false →
            replace escaped_newline newline
              (a +:+ String "092"%char (String "n"%char b))
            = a +:+ String "010"%char (replace escaped_newline newline b))
    as Hstep.
  { intros a b Ha. unfold replace, escaped_newline.
    rewrite (replace_go_app_absent "092"%char) by done.
    change (String "092"%char (String "n"%char b))
      with (String "092"%char "n" +:+ b).
    by rewrite replace_go_match. }
  assert (∀ item_type t,
            artwork_value item_type (PStr t)
            = PStr (strip_quotes
                      (if bool_decide (item_type = "NOTE")
                       then replace escaped_newline newline t
                       else t))) as Hform.
  { intros item_type t. unfold artwork_value. simpl.
    by destruct (bool_decide (item_type = "NOTE")). }
  repeat apply conj.
  - by apply add_artwork_item_skip.
  - intros Hif item_type item_id group Hsplit Hgroup.
    eexists. split; [by apply add_artwork_item_run|]. split.
    + intros k. rewrite get_copy_sorted.
      by destruct (non_null (get k record)).
    + apply keys_copy_sorted.
  - exact Hform.
  - intros item_type v Hv. by destruct v.
  - reflexivity.
  - reflexivity.
  - intros t Ht. rewrite Hform, bool_decide_eq_true_2 by done.
    by rewrite Habsent.
  - exact Hstep.
  - intros a b Ha Hb. rewrite Hform, bool_decide_eq_true_2 by done.
    change (String "034"%char
              (a +:+ String "092"%char
                       (String "n"%char (b +:+ String "034"%char ""))))
      with (String "034"%char a
            +:+ String "092"%char
                  (String "n"%char (b +:+ String "034"%char ""))).
    rewrite Hstep by (simpl; by rewrite Ha).
    rewrite Habsent.
    2:{ clear -Hb. induction b as [|x b IH]; [done|].
        simpl in Hb. apply orb_false_elim in Hb as [Hx Hb].
        change (has_char "092"%char
                  (String x (b +:+ String "034"%char "")) = false).
        simpl. by rewrite Hx, IH. }
    f_equal.
    change (String "034"%char a
            +:+ String "010"%char (b +:+ String "034"%char ""))
      with (String dquote (a +:+ (String "010"%char b +:+ String dquote ""))).
    rewrite <-append_assoc. fold (quoted (a +:+ String "010"%char b)).
    unfold strip_quotes. rewrite is_quoted_quoted.
    unfold quoted, slice_1_m1. apply drop_last_snoc.
  - reflexivity.
  - reflexivity.
Qed.

Lemma add_artwork_item_spec_witness :
  ∃ fields,
    add_artwork_item "GNS3-DATA" "NOTE 1" (init [] sample_top)
    = (Ok tt,
       with_artwork (set "NOTE" (set "1" fields []) (artwork (init [] sample_top)))
         (init [] sample_top))
    ∧ (∀ k, get k fields
            = artwork_value "NOTE"
              <$> non_null
                    (get k [("text",
                             PStr (quoted ("hello" +:+ escaped_newline
                                           +:+ "world")))]))
    ∧ StronglySorted (strict String.le) (keys fields).
Proof.
  apply (proj1 (proj2 (add_artwork_item_spec "GNS3-DATA" "NOTE 1"
                         (init [] sample_top) _ eq_refl))
           eq_refl "NOTE" "1" [] eq_refl eq_refl).
Defined.

(** ** C10: two devices of the same name *)

(** The outcome of [add_physical_item] and the record it leaves for the
    device do not depend on the devices already there. *)
Lemma add_physical_item_ignores_devices T instance item s d name entry :
  device_typename item = Ok (name, entry) →
  (add_physical_item T instance item (with_devices d s)).1
  = (add_physical_item T instance item s).1
  ∧ get name (devices (add_physical_item T instance item (with_devices d s)).2)
    = get name (devices (add_physical_item T instance item s).2).
Proof.
  intros Hty. destruct (device_typename_type _ _ _ Hty) as [ty Hentry].
  destruct (legacy_record s instance item) as [record|e] eqn:Hrec.
  - assert (legacy_record (with_devices d s) instance item = Ok record)
      as Hrec' by done.
    rewrite (add_physical_item_run _ _ _ _ _ _ _ _ Hty Hentry Hrec).
    rewrite (add_physical_item_run _ _ _ _ _ _ _ _ Hty Hentry Hrec').
    cbn zeta. change (conf_model (with_devices d s)) with (conf_model s).
    change (copied_record (with_devices d s) ty record)
      with (copied_record s ty record).
    destruct (_ && _).
    + destruct (match non_null (get "model" record) with
                | Some m => _ | None => _ end);
        cbn [fst snd devices with_devices with_nid];
        by rewrite !get_set_eq.
    + cbn [fst snd devices with_devices with_nid]. by rewrite !get_set_eq.
  - assert (legacy_record (with_devices d s) instance item = Raise e)
      as Hrec' by done.
    rewrite (add_physical_item_record_raise _ _ _ _ _ _ _ _ Hty Hentry Hrec).
    rewrite (add_physical_item_record_raise _ _ _ _ _ _ _ _ Hty Hentry Hrec').
    cbn [fst snd devices with_devices]. by rewrite !get_set_eq.
Qed.

(** C10: after a device of some name is added, a second call for an item
    that resolves to the same name raises nothing on account of the
    name: its outcome, and the record it leaves under the name, are
    those of the same call on an object without devices, so nothing of
    the first record is kept.  When it returns, [nid] has been
    incremented by both calls, the devices have the same keys as before
    it and the other devices are untouched.  Adding the same cloud twice
    to a new object leaves one device, with [node_id] 2, and [nid] = 3:
    1 is not the [node_id] of any device. *)
Theorem duplicate_name_replaces
    T instance1 item1 instance2 item2 name entry1 entry2 s s1 :
  device_typename item1 = Ok (name, entry1) →
  device_typename item2 = Ok (name, entry2) →
  add_physical_item T instance1 item1 s = (Ok tt, s1) →
  (add_physical_item T instance2 item2 s1).1
  = (add_physical_item T instance2 item2 (with_devices [] s1)).1
  ∧ get name (devices (add_physical_item T instance2 item2 s1).2)
    = get name
        (devices (add_physical_item T instance2 item2 (with_devices [] s1)).2)
  ∧ (∀ s2, add_physical_item T instance2 item2 s1 = (Ok tt, s2) →
       nid s2 = nid s + 2
       ∧ keys (devices s2) = keys (devices s1)
       ∧ ∀ other, other ≠ name →
                  get other (devices s2) = get other (devices s1))
  ∧ cloud_added_twice.1 = Ok tt
  ∧ devices cloud_added_twice.2
    = [("C1", [("hv_id", PInt 0); ("node_id", PInt 2);
               ("type", PStr "Cloud"); ("x", PStr "1")])]
  ∧ nid cloud_added_twice.2 = 3.
Proof.
  intros Hty1 Hty2 Hadd1.
  destruct (add_physical_item_ignores_devices T instance2 item2 s1 []
              name entry2 Hty2) as [Hres Hrec].
  split; [done|]. split; [done|]. split; [|by repeat split].
  intros s2 Hadd2.
  apply add_physical_item_Ok in Hadd1
    as (n1 & e1 & ty1 & r1 & d1 & Hty1' & _ & _ & -> & _).
  apply add_physical_item_Ok in Hadd2
    as (n2 & e2 & ty2 & r2 & d2 & Hty2' & _ & _ & -> & _).
  rewrite Hty1 in Hty1'. injection Hty1' as <- <-.
  rewrite Hty2 in Hty2'. injection Hty2' as <- <-.
  cbn [nid devices with_nid with_devices]. repeat split.
  - lia.
  - apply keys_set_old, get_is_Some. by rewrite get_set_eq.
  - intros other Hother. by rewrite get_set_ne.
Qed.

Lemma duplicate_name_replaces_witness :
  (add_physical_item sample_transform "GNS3-DATA" "Cloud C1" cloud_added.2).1
  = (add_physical_item sample_transform "GNS3-DATA" "Cloud C1"
       (with_devices [] cloud_added.2)).1
  ∧ nid cloud_added_twice.2 = nid (init [] cloud_top) + 2
  ∧ keys (devices cloud_added_twice.2) = keys (devices cloud_added.2).
Proof.
  destruct (duplicate_name_replaces sample_transform
              "GNS3-DATA" "Cloud C1" "GNS3-DATA" "Cloud C1" "C1"
              cloud_entry cloud_entry (init [] cloud_top) cloud_added.2
              eq_refl eq_refl eq_refl) as (Hres & _ & Hok & _).
  split; [exact Hres|].
  assert (add_physical_item sample_transform "GNS3-DATA" "Cloud C1"
            cloud_added.2 = (Ok tt, cloud_added_twice.2)) as Hsecond
    by (vm_compute; reflexivity).
  destruct (Hok cloud_added_twice.2 Hsecond) as (Hnid & Hkeys & _).
  split; [exact Hnid|exact Hkeys].
Defined.

(** * Further properties of the methods *)

(** ** Missing legacy records *)

Lemma legacy_record_missing s instance item :
  legacy_missing s instance item →
  legacy_record s instance item = Raise KeyError.
Proof.
  unfold legacy_record, getitem.
  intros [Hinst|(section & Hinst & Hitem)]; rewrite Hinst; [done|].
  cbn [mbind result_bind]. by rewrite Hitem.
Qed.

Lemma legacy_record_Raise s instance item e :
  legacy_record s instance item = Raise e →
  e = KeyError ∧ legacy_missing s instance item.
Proof.
  unfold legacy_record, legacy_missing, getitem.
  destruct (get instance (old_top s)) as [section|] eqn:Hinst.
  - cbn [mbind result_bind].
    destruct (get item section) eqn:Hitem; [done|].
    intros [= <-]. split; [done|]. right. by exists section.
  - intros [= <-]. split; [done|]. by left.
Qed.

Lemma add_artwork_item_raise instance item s e :
  legacy_record s instance item = Raise e →
  add_artwork_item instance item s = (Raise e, s).
Proof.
  intros Hrec. unfold add_artwork_item.
  by rewrite (bind_Raise _ _ _ e s) by (by rewrite old_top_item_run, Hrec).
Qed.

(** ** add_conf_item *)

(** X1: when the legacy record exists, [add_conf_item] returns; it
    appends one block to [conf] and sets [hv_id] to the index of that
    block, and changes nothing else.  The block holds the non-null
    fields of the legacy record, unchanged, in increasing order of their
    names, and [conf[hv_id]] is that block. *)
Theorem add_conf_item_appends instance item s record :
  legacy_record s instance item = Ok record →
  ∃ block,
    add_conf_item instance item s
    = (Ok tt,
       with_hv_id (Z.of_nat (length (conf s)))
         (with_conf (conf s ++ [block])%list s))
    ∧ (∀ k, get k block = non_null (get k record))
    ∧ StronglySorted (strict String.le) (keys block)
    ∧ list_getitem (conf s ++ [block])%list (Z.of_nat (length (conf s)))
      = Ok block.
Proof.
  intros Hrec. eexists. split; [|split; [|split]].
  - rewrite (add_conf_item_run _ _ _ _ Hrec). cbn zeta. do 2 f_equal.
    rewrite length_app. simpl. lia.
  - intros k. rewrite get_copy_sorted.
    by destruct (non_null (get k record)).
  - apply keys_copy_sorted.
  - unfold list_getitem. cbn zeta.
    destruct (decide (Z.of_nat (length (conf s)) < 0)) as [?|_]; [lia|].
    rewrite decide_True by (rewrite length_app; simpl; lia).
    rewrite Nat2Z.id, lookup_app_r, Nat.sub_diag by done. done.
Qed.

Lemma add_conf_item_appends_witness :
  ∃ block,
    add_conf_item "R1" "3600" (init [] sample_top)
    = (Ok tt,
       with_hv_id (Z.of_nat (length (conf (init [] sample_top))))
         (with_conf (conf (init [] sample_top) ++ [block])%list
            (init [] sample_top)))
    ∧ (∀ k, get k block
            = non_null (get k [("model", PStr "c3600"); ("ram", PNone)]))
    ∧ StronglySorted (strict String.le) (keys block)
    ∧ list_getitem (conf (init [] sample_top) ++ [block])%list
        (Z.of_nat (length (conf (init [] sample_top))))
      = Ok block.
Proof.
  apply (add_conf_item_appends "R1" "3600" (init [] sample_top)
           [("model", PStr "c3600"); ("ram", PNone)]).
  reflexivity.
Defined.

(** X2: for an instance or an item that the legacy topology lacks,
    [add_conf_item] and [add_artwork_item] raise [KeyError] and leave
    the object as it was. *)
Theorem missing_record_raises_KeyError instance item s :
  legacy_missing s instance item →
  add_conf_item instance item s = (Raise KeyError, s)
  ∧ add_artwork_item instance item s = (Raise KeyError, s).
Proof.
  intros Hrec%legacy_record_missing. split.
  - by apply add_conf_item_raise.
  - by apply add_artwork_item_raise.
Qed.

Lemma missing_record_raises_KeyError_witness :
  add_conf_item "R9" "3600" (init [] sample_top)
  = (Raise KeyError, init [] sample_top)
  ∧ add_artwork_item "R9" "3600" (init [] sample_top)
    = (Raise KeyError, init [] sample_top).
Proof.
  apply (missing_record_raises_KeyError "R9" "3600" (init [] sample_top)).
  left. reflexivity.
Defined.

(** ** add_physical_item *)

(** X3: for a known device type but an instance or an item that the
    legacy topology lacks, [add_physical_item] raises [KeyError] at line
    96, after lines 91 to 94 have stored a device with the three fields
    [hv_id], [node_id] and [type]; [nid] is not incremented. *)
Theorem add_physical_item_missing_record
    T instance item s name entry ty :
  device_typename item = Ok (name, entry) →
  get "type" entry = Some ty →
  legacy_missing s instance item →
  add_physical_item T instance item s
  = (Raise KeyError,
     with_devices
       (set name
          [("hv_id", PInt (hv_id s)); ("node_id", PInt (nid s));
           ("type", PStr ty)]
          (devices s)) s).
Proof.
  intros Hty Hentry Hrec%legacy_record_missing.
  by rewrite (add_physical_item_record_raise _ _ _ _ _ _ _ _
                Hty Hentry Hrec).
Qed.

Lemma add_physical_item_missing_record_witness :
  add_physical_item sample_transform "R9" "ROUTER R1" (init [] sample_top)
  = (Raise KeyError,
     with_devices
       (set "R1"
          [("hv_id", PInt (hv_id (init [] sample_top)));
           ("node_id", PInt (nid (init [] sample_top)));
           ("type", PStr "Router")]
          (devices (init [] sample_top))) (init [] sample_top)).
Proof.
  apply (add_physical_item_missing_record sample_transform "R9" "ROUTER R1"
           (init [] sample_top) "R1" router_entry "Router" eq_refl eq_refl).
  left. reflexivity.
Defined.

(** The three ways a call of [add_physical_item] can go. *)
Lemma add_physical_item_cases T instance item s :
  (∃ e, device_typename item = Raise e
        ∧ add_physical_item T instance item s = (Raise e, s))
  ∨ (∃ name entry device e,
       device_typename item = Ok (name, entry)
       ∧ add_physical_item T instance item s
         = (Raise e, with_devices (set name device (devices s)) s))
  ∨ (∃ name entry device,
       device_typename item = Ok (name, entry)
       ∧ add_physical_item T instance item s
         = (Ok tt,
            with_nid (nid s + 1)
              (with_devices (set name device (devices s)) s))).
Proof.
  destruct (device_typename item) as [[name entry]|e] eqn:Hty.
  2:{ left. exists e. split; [done|].
      by apply add_physical_item_typename_raise. }
  right. destruct (device_typename_type _ _ _ Hty) as [ty Hentry].
  destruct (legacy_record s instance item) as [record|e] eqn:Hrec.
  2:{ left. eexists name, entry, _, e. split; [done|].
      by apply (add_physical_item_record_raise _ _ _ _ _ _ _ _
                  Hty Hentry Hrec). }
  rewrite (add_physical_item_run _ _ _ _ _ _ _ _ Hty Hentry Hrec).
  cbn zeta. destruct (_ && _).
  - destruct (match non_null (get "model" record) with
              | Some m => _ | None => _ end) as [m'|e].
    + right. by eexists name, entry, _.
    + left. by eexists name, entry, _, e.
  - right. by eexists name, entry, _.
Qed.

(** X4: [add_physical_item] increments [nid] by one when it returns and
    leaves it as it was when it raises, at whatever line. *)
Theorem add_physical_item_nid_exact T instance item s :
  nid (add_physical_item T instance item s).2
  = if is_ok (add_physical_item T instance item s).1
    then nid s + 1 else nid s.
Proof.
  destruct (add_physical_item_cases T instance item s)
    as [(e & _ & ->)|[(name & entry & device & e & _ & ->)
                     |(name & entry & device & _ & ->)]]; done.
Qed.

(** X5: [add_physical_item] writes to no device but the one it names:
    when the type of the item resolves, the devices of other names are
    as before and the named device is present afterwards, whether the
    call returns or raises; when the type does not resolve the devices
    are as before. *)
Theorem add_physical_item_touches_one_device T instance item s :
  match device_typename item with
  | Ok (name, _) =>
      is_Some (get name (devices (add_physical_item T instance item s).2))
      ∧ ∀ other, other ≠ name →
          get other (devices (add_physical_item T instance item s).2)
          = get other (devices s)
  | Raise _ => devices (add_physical_item T instance item s).2 = devices s
  end.
Proof.
  destruct (add_physical_item_cases T instance item s)
    as [(e & -> & ->)|[(name & entry & device & e & -> & ->)
                      |(name & entry & device & -> & ->)]];
    [done|..]; cbn [snd devices with_devices with_nid];
    (split; [rewrite get_set_eq; by eexists
            |intros other Hother; by rewrite get_set_ne]).
Qed.

(** X6: [add_physical_item] never writes to the configuration blocks,
    the cursor [hv_id], the artwork, the legacy topology or the
    sections, whether it returns or raises. *)
Theorem add_physical_item_frame T instance item s :
  conf (add_physical_item T instance item s).2 = conf s
  ∧ hv_id (add_physical_item T instance item s).2 = hv_id s
  ∧ artwork (add_physical_item T instance item s).2 = artwork s
  ∧ old_top (add_physical_item T instance item s).2 = old_top s
  ∧ sections (add_physical_item T instance item s).2 = sections s.
Proof.
  repeat split; by apply add_physical_item_keeps.
Qed.

(** ** add_artwork_item *)

(** The two ways a call of [add_artwork_item] can go: it leaves the
    object as it was, or it returns after writing one record. *)
Lemma add_artwork_item_cases instance item s :
  (∃ r, add_artwork_item instance item s = (r, s))
  ∨ (∃ item_type item_id group fields,
       split space item = [item_type; item_id]
       ∧ get item_type (artwork s) = Some group
       ∧ add_artwork_item instance item s
         = (Ok tt,
            with_artwork
              (set item_type (set item_id fields group) (artwork s)) s)).
Proof.
  destruct (legacy_record s instance item) as [record|e] eqn:Hrec.
  2:{ left. eexists. by apply add_artwork_item_raise. }
  destruct (contains "interface" record) eqn:Hif.
  { left. eexists. by eapply add_artwork_item_skip. }
  destruct (split space item) as [|a [|b [|c l]]] eqn:Hsplit.
  1,2,4: left; eexists;
         apply (add_artwork_item_bad_item _ _ _ _ Hrec Hif);
         intros ??; by rewrite Hsplit.
  destruct (get a (artwork s)) as [group|] eqn:Hgroup.
  - right. eexists a, b, group, _. repeat split; [done|].
    by apply (add_artwork_item_run _ _ _ _ _ _ _ Hrec Hif Hsplit Hgroup).
  - left. eexists.
    by apply (add_artwork_item_bad_category _ _ _ _ _ _ Hrec Hif Hsplit).
Qed.

(** X7: [add_artwork_item] never writes to the devices, the
    configuration blocks, the cursors [hv_id] and [nid], the legacy
    topology or the sections; in the artwork it keeps the categories
    and every record but the one named by the two tokens of the item,
    whether it returns or raises. *)
Theorem add_artwork_item_frame instance item s :
  devices (add_artwork_item instance item s).2 = devices s
  ∧ conf (add_artwork_item instance item s).2 = conf s
  ∧ hv_id (add_artwork_item instance item s).2 = hv_id s
  ∧ nid (add_artwork_item instance item s).2 = nid s
  ∧ old_top (add_artwork_item instance item s).2 = old_top s
  ∧ sections (add_artwork_item instance item s).2 = sections s
  ∧ keys (artwork (add_artwork_item instance item s).2) = keys (artwork s)
  ∧ ∀ item_type item_id,
      split space item ≠ [item_type; item_id] →
      artwork_record (add_artwork_item instance item s).2 item_type item_id
      = artwork_record s item_type item_id.
Proof.
  repeat split; try by apply add_artwork_item_keeps.
  - apply add_artwork_item_keeps_categories.
  - intros item_type item_id Hne.
    destruct (add_artwork_item_cases instance item s)
      as [[r ->]|(t & i & group & fields & Hsplit & Hgroup & ->)]; [done|].
    unfold artwork_record. cbn [snd artwork with_artwork].
    destruct (decide (item_type = t)) as [->|Ht].
    + rewrite get_set_eq, Hgroup. cbn [mbind option_bind].
      rewrite get_set_ne; [done|]. intros ->. by rewrite Hsplit in Hne.
    + by rewrite get_set_ne.
Qed.

(** X8: calling [add_artwork_item] twice with the same arguments gives
    the outcome and the object of calling it once: the record is
    emptied and filled again from the same legacy record. *)
Theorem add_artwork_item_twice instance item s :
  (add_artwork_item instance item;; add_artwork_item instance item) s
  = add_artwork_item instance item s.
Proof.
  rewrite bind_run.
  destruct (legacy_record s instance item) as [record|e] eqn:Hrec.
  2:{ by rewrite (add_artwork_item_raise _ _ _ _ Hrec). }
  destruct (contains "interface" record) eqn:Hif.
  { rewrite (add_artwork_item_skip _ _ _ _ Hrec Hif).
    by apply add_artwork_item_skip with record. }
  destruct (split space item) as [|a [|b [|c l]]] eqn:Hsplit.
  1,2,4: rewrite (add_artwork_item_bad_item _ _ s record Hrec Hif);
         [done|intros ??; by rewrite Hsplit].
  destruct (get a (artwork s)) as [group|] eqn:Hgroup.
  - rewrite (add_artwork_item_run _ _ _ _ _ _ _ Hrec Hif Hsplit Hgroup).
    erewrite add_artwork_item_run;
      [|exact Hrec|exact Hif|exact Hsplit|apply get_set_eq].
    cbn [artwork with_artwork]. by rewrite !set_set.
  - by rewrite (add_artwork_item_bad_category _ _ _ _ _ _
                  Hrec Hif Hsplit Hgroup).
Qed.

(** X9: for a legacy record without an [interface] field,
    [add_artwork_item] raises [ValueError] when the item does not split
    into exactly two tokens at its spaces, and [KeyError] when the first
    of two tokens is not a category of the artwork; the object is left
    as it was in both cases. *)
Theorem add_artwork_item_malformed instance item s record :
  legacy_record s instance item = Ok record →
  contains "interface" record = false →
  ((∀ item_type item_id, split space item ≠ [item_type; item_id]) →
   add_artwork_item instance item s = (Raise ValueError, s))
  ∧ (∀ item_type item_id,
       split space item = [item_type; item_id] →
       get item_type (artwork s) = None →
       add_artwork_item instance item s = (Raise KeyError, s)).
Proof.
  intros Hrec Hif. split.
  - by apply add_artwork_item_bad_item with record.
  - intros item_type item_id Hsplit Hnone.
    by apply (add_artwork_item_bad_category _ _ _ _ _ _ Hrec Hif Hsplit).
Qed.

Lemma add_artwork_item_malformed_witness :
  add_artwork_item "GNS3-DATA" "NOTE" (init [] odd_top)
  = (Raise ValueError, init [] odd_top)
  ∧ add_artwork_item "GNS3-DATA" "LABEL 1" (init [] odd_top)
    = (Raise KeyError, init [] odd_top).
Proof.
  split.
  - apply (proj1 (add_artwork_item_malformed "GNS3-DATA" "NOTE"
                    (init [] odd_top) [("text", PStr "a")]
                    eq_refl eq_refl)).
    intros item_type item_id H. vm_compute in H. discriminate H.
  - apply (proj2 (add_artwork_item_malformed "GNS3-DATA" "LABEL 1"
                    (init [] odd_top) [("text", PStr "b")]
                    eq_refl eq_refl) "LABEL" "1"); reflexivity.
Defined.

(** ** Whole conversions *)

Lemma do_call_keeps {B} (f : LegacyTopology → B) T c :
  (∀ d s, f (with_devices d s) = f s) →
  (∀ n s, f (with_nid n s) = f s) →
  (∀ a s, f (with_artwork a s) = f s) →
  (∀ c s, f (with_conf c s) = f s) →
  (∀ h s, f (with_hv_id h s) = f s) →
  keeps f (do_call T c).
Proof.
  intros. destruct c; simpl.
  - by apply add_artwork_item_keeps.
  - by apply add_conf_item_keeps.
  - by apply add_physical_item_keeps.
Qed.

Lemma run_invariant_any T (P : LegacyTopology → Prop) :
  (∀ c s, P s → P (do_call T c s).2) →
  ∀ cs s, P s → P (run T cs s).2.
Proof.
  intros Hstep. induction cs as [|c cs IH]; intros s HP; [done|].
  unfold run. cbn [for_each]. rewrite bind_run.
  specialize (Hstep c s HP).
  destruct (do_call T c s) as [[[]|e] s1]; [|done].
  by apply IH.
Qed.

(** X10: no sequence of calls writes to the legacy topology or to the
    sections, whether the conversion ends or stops at an exception. *)
Theorem run_never_writes_legacy T cs s :
  old_top (run T cs s).2 = old_top s
  ∧ sections (run T cs s).2 = sections s.
Proof.
  split; apply keeps_for_each; intros c; by apply do_call_keeps.
Qed.

(** X11: after any sequence of calls on a new object, the artwork has
    its three categories [SHAPE], [NOTE] and [PIXMAP], in this order,
    and no other. *)
Theorem run_keeps_categories T cs secs top :
  keys (artwork (run T cs (init secs top)).2) = ["SHAPE"; "NOTE"; "PIXMAP"].
Proof.
  apply (run_invariant_any T
           (fun s => keys (artwork s) = ["SHAPE"; "NOTE"; "PIXMAP"]));
    [|done].
  intros c s <-. destruct c; simpl.
  - apply add_artwork_item_keeps_categories.
  - by apply (add_conf_item_keeps (fun s => keys (artwork s))).
  - by apply (add_physical_item_keeps (fun s => keys (artwork s))).
Qed.

Lemma do_call_cursor_any T c s :
  cursor_ok s → cursor_ok (do_call T c s).2.
Proof.
  unfold cursor_ok. intros Hs. destruct c as [i it|i it|i it]; simpl.
  - rewrite (add_artwork_item_keeps conf i it (fun _ _ => eq_refl) s).
    by rewrite (add_artwork_item_keeps hv_id i it (fun _ _ => eq_refl) s).
  - destruct (legacy_record s i it) as [record|e] eqn:Hrec.
    + rewrite (add_conf_item_run _ _ _ _ Hrec).
      cbn [snd hv_id conf with_hv_id with_conf].
      rewrite length_app. simpl. lia.
    + by rewrite (add_conf_item_raise _ _ _ _ Hrec).
  - rewrite (add_physical_item_keeps conf (fun _ _ => eq_refl)
               (fun _ _ => eq_refl) T i it s).
    by rewrite (add_physical_item_keeps hv_id (fun _ _ => eq_refl)
                  (fun _ _ => eq_refl) T i it s).
Qed.

(** X12: after any sequence of calls on a new object, whether it ends
    or stops at an exception, [conf[hv_id]] is the last configuration
    block; it raises [IndexError] exactly when there is no block yet. *)
Theorem run_cursor_indexes_last T cs secs top :
  list_getitem (conf (run T cs (init secs top)).2)
    (hv_id (run T cs (init secs top)).2)
  = match last (conf (run T cs (init secs top)).2) with
    | Some block => Ok block
    | None => Raise IndexError
    end.
Proof.
  assert (cursor_ok (run T cs (init secs top)).2) as Hcur.
  { apply run_invariant_any; [apply do_call_cursor_any|reflexivity]. }
  unfold cursor_ok in Hcur. rewrite Hcur, last_lookup.
  destruct (conf (run T cs (init secs top)).2) as [|b l]; [done|].
  unfold list_getitem. cbn zeta. cbn [length].
  replace (Z.max 0 (Z.of_nat (S (length l)) - 1))
    with (Z.of_nat (length l)) by lia.
  destruct (decide (Z.of_nat (length l) < 0)) as [?|_]; [lia|].
  rewrite decide_True by lia. rewrite Nat2Z.id. cbn [pred].
  destruct ((b :: l) !! length l) eqn:Hl; [done|].
  apply lookup_ge_None in Hl. simpl in Hl. lia.
Qed.

(** ** Routers and their configuration block *)

Lemma list_getitem_snoc {A} (l : list A) (x : A) :
  list_getitem (l ++ [x])%list (Z.of_nat (length l)) = Ok x.
Proof.
  unfold list_getitem. cbn zeta.
  destruct (decide (Z.of_nat (length l) < 0)) as [?|_]; [lia|].
  rewrite decide_True by (rewrite length_app; simpl; lia).
  by rewrite Nat2Z.id, lookup_app_r, Nat.sub_diag.
Qed.

Lemma list_getitem_nil {A} (i : Z) : list_getitem (@nil A) i = Raise IndexError.
Proof.
  unfold list_getitem. cbn zeta. simpl length.
  rewrite decide_False; [done|]. case_decide; lia.
Qed.

(** X13: a router without a legacy model, outside ['GNS3-DATA'], cannot
    be added before the first configuration block: the call raises
    [IndexError] at line 105.  With a block that has no [model] it
    raises [KeyError].  Either way the device stays in the devices,
    without a model, and [nid] is not incremented. *)
Theorem router_without_conf_model T s instance item name entry ty record :
  instance ≠ "GNS3-DATA" →
  device_typename item = Ok (name, entry) →
  get "type" entry = Some ty →
  legacy_record s instance item = Ok record →
  eq_str (stored_type ty record) "Router" = true →
  non_null (get "model" record) = None →
  ∃ device,
    get "model" device = None
    ∧ (conf s = [] →
       add_physical_item T instance item s
       = (Raise IndexError, with_devices (set name device (devices s)) s))
    ∧ (∀ block, list_getitem (conf s) (hv_id s) = Ok block →
       get "model" block = None →
       add_physical_item T instance item s
       = (Raise KeyError, with_devices (set name device (devices s)) s)).
Proof.
  intros Hinst Hty Hentry Hrec Hrouter Hmodel.
  exists (copied_record s ty record). split; [|split].
  - by rewrite get_model_copied.
  - intros Hconf.
    rewrite (add_physical_item_run _ _ _ _ _ _ _ _ Hty Hentry Hrec).
    cbn zeta. fold (stored_type ty record).
    rewrite bool_decide_eq_true_2, Hrouter, Hmodel by done. cbn [andb].
    unfold conf_model. by rewrite Hconf, list_getitem_nil.
  - intros block Hblock Hnone.
    rewrite (add_physical_item_run _ _ _ _ _ _ _ _ Hty Hentry Hrec).
    cbn zeta. fold (stored_type ty record).
    rewrite bool_decide_eq_true_2, Hrouter, Hmodel by done. cbn [andb].
    unfold conf_model. rewrite Hblock. cbn [mbind result_bind].
    unfold getitem. by rewrite Hnone.
Qed.

Lemma router_without_conf_model_witness :
  ∃ device,
    get "model" device = None
    ∧ (conf (init [] sample_top) = [] →
       add_physical_item sample_transform "R1" "ROUTER R1"
         (init [] sample_top)
       = (Raise IndexError,
          with_devices (set "R1" device (devices (init [] sample_top)))
            (init [] sample_top)))
    ∧ (∀ block,
         list_getitem (conf (init [] sample_top))
           (hv_id (init [] sample_top)) = Ok block →
         get "model" block = None →
         add_physical_item sample_transform "R1" "ROUTER R1"
           (init [] sample_top)
         = (Raise KeyError,
            with_devices (set "R1" device (devices (init [] sample_top)))
              (init [] sample_top))).
Proof.
  apply (router_without_conf_model sample_transform (init [] sample_top)
           "R1" "ROUTER R1" "R1" router_entry "Router"
           [("model", PNone); ("x", PStr "10")]
           ltac:(discriminate) eq_refl eq_refl eq_refl eq_refl eq_refl).
Defined.

(** X14: a configuration block and a router compose: when
    [add_conf_item] is given a legacy record with a non-null model and
    [add_physical_item] is called next for a router, outside
    ['GNS3-DATA'], whose legacy record has no model, both calls return
    and the router gets the model of that block, untranslated. *)
Theorem conf_then_router
    T s instance1 item1 block_record m instance item name entry ty record :
  legacy_record s instance1 item1 = Ok block_record →
  non_null (get "model" block_record) = Some m →
  instance ≠ "GNS3-DATA" →
  device_typename item = Ok (name, entry) →
  get "type" entry = Some ty →
  legacy_record s instance item = Ok record →
  eq_str (stored_type ty record) "Router" = true →
  non_null (get "model" record) = None →
  ∃ s',
    run T [AddConfItem instance1 item1; AddPhysicalItem instance item] s
    = (Ok tt, s')
    ∧ device_field s' name "model" = Some m
    ∧ nid s' = nid s + 1
    ∧ length (conf s') = S (length (conf s)).
Proof.
  intros Hblock Hm Hinst Hty Hentry Hrec Hrouter Hmodel.
  unfold run. cbn [for_each do_call].
  rewrite bind_run, (add_conf_item_run _ _ _ _ Hblock). cbn zeta.
  set (block := copy_fields id block_record (sorted block_record) []).
  set (s1 := with_hv_id _ _).
  rewrite bind_run.
  assert (legacy_record s1 instance item = Ok record) as Hrec1 by done.
  rewrite (add_physical_item_run _ _ _ _ _ _ _ _ Hty Hentry Hrec1).
  cbn zeta. fold (stored_type ty record).
  rewrite bool_decide_eq_true_2, Hrouter, Hmodel by done. cbn [andb].
  assert (conf_model s1 = Ok m) as ->.
  { unfold conf_model, s1. cbn [conf hv_id with_hv_id with_conf].
    replace (Z.of_nat (length (conf s ++ [block])) - 1)
      with (Z.of_nat (length (conf s))) by (rewrite length_app; simpl; lia).
    rewrite list_getitem_snoc. cbn [mbind result_bind].
    unfold getitem, block. rewrite get_copy_sorted, Hm. done. }
  eexists. split; [reflexivity|]. split; [|split].
  - by rewrite device_field_added, get_set_eq.
  - done.
  - cbn. rewrite length_app. simpl. lia.
Qed.

Lemma conf_then_router_witness :
  ∃ s',
    run sample_transform
      [AddConfItem "R1" "3600"; AddPhysicalItem "R1" "ROUTER R1"]
      (init [] sample_top)
    = (Ok tt, s')
    ∧ device_field s' "R1" "model" = Some (PStr "c3600")
    ∧ nid s' = nid (init [] sample_top) + 1
    ∧ length (conf s') = S (length (conf (init [] sample_top))).
Proof.
  apply (conf_then_router sample_transform (init [] sample_top)
           "R1" "3600" [("model", PStr "c3600"); ("ram", PNone)]
           (PStr "c3600") "R1" "ROUTER R1" "R1" router_entry "Router"
           [("model", PNone); ("x", PStr "10")]
           eq_refl eq_refl ltac:(discriminate) eq_refl eq_refl eq_refl
           eq_refl eq_refl).
Defined.

(** ** Devices that are not routers *)

(** X15: outside the router branch, that is for the instance
    ['GNS3-DATA'] or a stored type other than ['Router'],
    [add_physical_item] returns as soon as the type of the item
    resolves and the legacy record exists.  The device holds the
    non-null legacy fields as they are, a model included, and below
    them [hv_id], [node_id] and [type]; neither [conf] nor
    [MODEL_TRANSFORM] is read. *)
Theorem add_physical_item_plain T instance item s name entry ty record :
  device_typename item = Ok (name, entry) →
  get "type" entry = Some ty →
  legacy_record s instance item = Ok record →
  instance = "GNS3-DATA" ∨ eq_str (stored_type ty record) "Router" = false →
  ∃ device,
    add_physical_item T instance item s
    = (Ok tt,
       with_nid (nid s + 1) (with_devices (set name device (devices s)) s))
    ∧ ∀ k,
        get k device
        = match non_null (get k record) with
          | Some v => Some v
          | None =>
              get k [("hv_id", PInt (hv_id s)); ("node_id", PInt (nid s));
                     ("type", PStr ty)]
          end.
Proof.
  intros Hty Hentry Hrec Hplain.
  exists (copied_record s ty record). split.
  - rewrite (add_physical_item_run _ _ _ _ _ _ _ _ Hty Hentry Hrec).
    cbn zeta. fold (stored_type ty record).
    destruct Hplain as [-> | ->]; [done|].
    by rewrite andb_false_r.
  - intros k. apply get_copied.
Qed.

Lemma add_physical_item_plain_witness :
  ∃ device,
    add_physical_item [] "GNS3-DATA" "Cloud C1" (init [] cloud_top)
    = (Ok tt,
       with_nid (nid (init [] cloud_top) + 1)
         (with_devices (set "C1" device (devices (init [] cloud_top)))
            (init [] cloud_top)))
    ∧ ∀ k,
        get k device
        = match non_null (get k [("x", PStr "1")]) with
          | Some v => Some v
          | None =>
              get k [("hv_id", PInt (hv_id (init [] cloud_top)));
                     ("node_id", PInt (nid (init [] cloud_top)));
                     ("type", PStr "Cloud")]
          end.
Proof.
  apply (add_physical_item_plain [] "GNS3-DATA" "Cloud C1"
           (init [] cloud_top) "C1" cloud_entry "Cloud" [("x", PStr "1")]
           eq_refl eq_refl eq_refl).
  left. reflexivity.
Defined.

(** X16: when [add_physical_item] returns, every field of the device
    other than [model] is the non-null legacy field of that name if
    there is one, and otherwise the field [hv_id], [node_id] or [type]
    written at lines 92 to 94; a legacy field that is [None] is not
    copied. *)
Theorem add_physical_item_fields T instance item s s' name entry :
  device_typename item = Ok (name, entry) →
  add_physical_item T instance item s = (Ok tt, s') →
  ∃ ty record,
    get "type" entry = Some ty
    ∧ legacy_record s instance item = Ok record
    ∧ ∀ k, k ≠ "model" →
        device_field s' name k
        = match non_null (get k record) with
          | Some v => Some v
          | None =>
              get k [("hv_id", PInt (hv_id s)); ("node_id", PInt (nid s));
                     ("type", PStr ty)]
          end.
Proof.
  intros Hty Hadd.
  apply add_physical_item_Ok in Hadd
    as (name' & entry' & ty & record & device
        & Hty' & Hentry & Hrec & -> & Hdev).
  rewrite Hty in Hty'. injection Hty' as <- <-.
  exists ty, record. repeat split; [done..|].
  intros k Hk. by rewrite device_field_added, Hdev, get_copied.
Qed.

Lemma add_physical_item_fields_witness :
  ∃ ty record,
    get "type" router_entry = Some ty
    ∧ legacy_record conf_added.2 "R1" "ROUTER R1" = Ok record
    ∧ ∀ k, k ≠ "model" →
        device_field router_added.2 "R1" k
        = match non_null (get k record) with
          | Some v => Some v
          | None =>
              get k [("hv_id", PInt (hv_id conf_added.2));
                     ("node_id", PInt (nid conf_added.2));
                     ("type", PStr ty)]
          end.
Proof.
  apply (add_physical_item_fields sample_transform "R1" "ROUTER R1"
           conf_added.2 router_added.2 "R1" router_entry eq_refl).
  vm_compute. reflexivity.
Defined.

(** ** The node_id of the stored devices *)

Lemma get_Some_In {A} k (d : dict A) v : get k d = Some v → In (k, v) d.
Proof.
  induction d as [|[k' v'] d IH]; simpl; [done|].
  case_decide; [intros [= ->]; subst; by left|]. right. by apply IH.
Qed.

Lemma no_legacy_field_lookup field top instance section item record :
  no_legacy_field field top = true →
  get instance top = Some section →
  get item section = Some record →
  non_null (get field record) = None.
Proof.
  unfold no_legacy_field. intros Hall Hsection Hrecord.
  rewrite forallb_forall in Hall.
  specialize (Hall _ (get_Some_In _ _ _ Hsection)). simpl in Hall.
  rewrite forallb_forall in Hall.
  specialize (Hall _ (get_Some_In _ _ _ Hrecord)). simpl in Hall.
  by destruct (non_null (get field record)).
Qed.

Lemma legacy_record_Ok s instance item record :
  legacy_record s instance item = Ok record →
  ∃ section, get instance (old_top s) = Some section
             ∧ get item section = Some record.
Proof.
  unfold legacy_record, getitem.
  destruct (get instance (old_top s)) as [section|]; [|done].
  cbn [mbind result_bind].
  destruct (get item section) eqn:Hitem; [|done].
  intros [= ->]. by exists section.
Qed.

Lemma node_ids_ok_ext s s' :
  devices s' = devices s → nid s' = nid s → node_ids_ok s → node_ids_ok s'.
Proof. unfold node_ids_ok. by intros -> ->. Qed.

Lemma do_call_node_ids_ok T c s s' :
  do_call T c s = (Ok tt, s') →
  no_legacy_field "node_id" (old_top s) = true →
  node_ids_ok s → node_ids_ok s'.
Proof.
  intros Hc Htop Hs. destruct c as [i it|i it|i it]; simpl in Hc.
  - pose proof (add_artwork_item_keeps devices i it (fun _ _ => eq_refl) s).
    pose proof (add_artwork_item_keeps nid i it (fun _ _ => eq_refl) s).
    rewrite Hc in *. by apply node_ids_ok_ext with s.
  - pose proof (add_conf_item_keeps devices i it (fun _ _ => eq_refl)
                  (fun _ _ => eq_refl) s).
    pose proof (add_conf_item_keeps nid i it (fun _ _ => eq_refl)
                  (fun _ _ => eq_refl) s).
    rewrite Hc in *. by apply node_ids_ok_ext with s.
  - apply add_physical_item_Ok in Hc
      as (name & entry & ty & record & device & _ & _ & Hrec & -> & Hdev).
    apply legacy_record_Ok in Hrec as (section & Hsection & Hrecord).
    assert (get "node_id" device = Some (PInt (nid s))) as Hnew.
    { rewrite Hdev, get_copied by done.
      by rewrite (no_legacy_field_lookup _ _ _ _ _ _ Htop Hsection Hrecord). }
    destruct Hs as (Hnid & Hrange & Hinj).
    unfold node_ids_ok. cbn [nid devices with_nid with_devices].
    split; [lia|]. split.
    + intros name' device'. rewrite get_set.
      case_decide; [intros [= <-]; exists (nid s); split; [done|lia]|].
      intros (n & ? & ?)%Hrange. exists n. split; [done|lia].
    + intros name1 name2 device1 device2 v. rewrite !get_set.
      repeat case_decide; subst; [done|..].
      * intros [= <-] H2 H1 Hv. rewrite Hnew in H1. injection H1 as <-.
        apply Hrange in H2 as (n & Hn & ?). rewrite Hn in Hv.
        injection Hv as Hv. lia.
      * intros H1 [= <-] Hv H2. rewrite Hnew in H2. injection H2 as <-.
        apply Hrange in H1 as (n & Hn & ?). rewrite Hn in Hv.
        injection Hv as Hv. lia.
      * apply Hinj.
Qed.

(** X17: in a conversion that ends without an exception, on a legacy
    topology none of whose records has a non-null field named
    [node_id], every stored device has an integer [node_id] between 1
    and [nid] - 1, and two stored devices never share a [node_id]. *)
Theorem run_node_ids_distinct T cs secs top s :
  run T cs (init secs top) = (Ok tt, s) →
  no_legacy_field "node_id" top = true →
  node_ids_ok s.
Proof.
  intros Hrun Htop.
  assert (old_top s = top ∧ node_ids_ok s) as [_ ?]; [|done].
  apply (run_invariant T (fun x => old_top x = top ∧ node_ids_ok x))
    with cs (init secs top); [|done|].
  - intros c x x' Hc [Hx Hok]. split.
    + pose proof (do_call_old_top T c x) as H. rewrite Hc in H.
      simpl in H. congruence.
    + apply (do_call_node_ids_ok T c x); [done|by rewrite Hx|done].
  - split; [done|]. unfold node_ids_ok. simpl. split; [lia|].
    split; intros; discriminate.
Qed.

Lemma run_node_ids_distinct_witness : node_ids_ok sample_run.2.
Proof.
  apply (run_node_ids_distinct sample_transform
           [AddConfItem "R1" "3600"; AddPhysicalItem "R1" "ROUTER R1";
            AddPhysicalItem "R1" "ROUTER R2";
            AddArtworkItem "GNS3-DATA" "NOTE 1"]
           [] sample_top sample_run.2).
  - vm_compute. reflexivity.
  - reflexivity.
Defined.

(** ** Values of artwork fields *)

(** X18: stripping undoes quoting: a string wrapped in one pair of
    double quotes comes back as it was, whatever it contains, and is
    stored so in the field of an artwork item of a category other than
    ['NOTE']. *)
Theorem strip_quotes_quoted s :
  strip_quotes (quoted s) = s
  ∧ ∀ item_type, item_type ≠ "NOTE" →
      artwork_value item_type (PStr (quoted s)) = PStr s.
Proof.
  assert (strip_quotes (quoted s) = s) as Hstrip.
  { unfold strip_quotes. rewrite is_quoted_quoted.
    unfold quoted, slice_1_m1. apply drop_last_snoc. }
  split; [done|]. intros item_type Hne. unfold artwork_value.
  rewrite bool_decide_eq_false_2 by done. cbn [andb is_str].
  by rewrite Hstrip.
Qed.

Lemma strip_quotes_quoted_witness :
  artwork_value "SHAPE" (PStr (quoted "red")) = PStr "red".
Proof.
  apply (proj2 (strip_quotes_quoted "red") "SHAPE"). discriminate.
Defined.

(** X19: a string that is not wrapped in double quotes is stored
    unchanged in the field of an artwork item, provided the category is
    not ['NOTE'] or the string has no backslash. *)
Theorem artwork_value_plain item_type t :
  item_type ≠ "NOTE" ∨ has_char backslash t = false →
  is_quoted t = false →
  artwork_value item_type (PStr t) = PStr t.
Proof.
  intros Hplain Hq. unfold artwork_value. cbn [is_str]. rewrite andb_true_r.
  assert (strip_quotes t = t) as Hstrip by (unfold strip_quotes; by rewrite Hq).
  destruct (bool_decide (item_type = "NOTE")) eqn:Hnote; [|by rewrite Hstrip].
  apply bool_decide_eq_true in Hnote.
  destruct Hplain as [?|Hback]; [done|].
  assert (replace escaped_newline newline t = t) as ->; [|by rewrite Hstrip].
  by apply (replace_go_absent backslash).
Qed.

Lemma artwork_value_plain_witness :
  artwork_value "NOTE" (PStr "hello world") = PStr "hello world".
Proof.
  apply (artwork_value_plain "NOTE" "hello world"); [right|]; reflexivity.
Defined.

(** ** device_typename, for every item *)

(** X20: [device_typename] returns exactly when the first token of the
    item is one of the nine tags of the table, and it then returns the
    entry of that tag, whose [from] is the tag itself. *)
Theorem device_typename_returns_iff item :
  (∀ tag, first_token item = Ok tag → tag ∈ keys dev_type →
     ∃ name entry,
       device_typename item = Ok (name, entry)
       ∧ get tag dev_type = Some entry
       ∧ get "from" entry = Some tag)
  ∧ (∀ name entry, device_typename item = Ok (name, entry) →
       ∃ tag, first_token item = Ok tag
              ∧ tag ∈ keys dev_type
              ∧ get tag dev_type = Some entry).
Proof.
  split.
  - intros tag Htag [entry Hentry]%get_is_Some.
    destruct (dev_type_entry _ _ Hentry) as [Hfrom _].
    unfold device_typename. rewrite Htag. cbn [mbind result_bind].
    unfold getitem. rewrite Hentry. cbn [mbind result_bind].
    rewrite Hfrom. cbn [mbind result_bind]. by eexists _, entry.
  - intros name entry (tag & Htag & Hentry & _)%device_typename_inv.
    exists tag. repeat split; [done| |done].
    apply get_is_Some. by rewrite Hentry.
Qed.

(** X21: for an item made of a tag of the table, one space and a name
    without a space, [device_typename] returns the name as it is,
    together with the entry of the tag. *)
Theorem device_typename_recovers_name tag entry name :
  get tag dev_type = Some entry →
  has_char space name = false →
  device_typename (tag +:+ String space name) = Ok (name, entry)
  ∧ first_token (tag +:+ String space name) = Ok tag.
Proof.
  intros Hentry Hname. split; [by apply device_typename_plain_name|].
  apply first_token_tag. revert Hentry. unfold dev_type. simpl.
  repeat (case_decide; [by subst|]). done.
Qed.

Lemma device_typename_recovers_name_witness :
  device_typename ("ETHSW" +:+ String space "SW1")
  = Ok ("SW1", [("from", "ETHSW"); ("desc", "Ethernet switch");
                ("type", "EthernetSwitch")])
  ∧ first_token ("ETHSW" +:+ String space "SW1") = Ok "ETHSW".
Proof.
  apply (device_typename_recovers_name "ETHSW" _ "SW1"); reflexivity.
Defined.

(** ** The configuration blocks of a conversion *)

Lemma count_conf_cons c cs :
  count_conf (c :: cs) = ((if is_conf c then 1 else 0) + count_conf cs)%nat.
Proof. unfold count_conf. simpl. by destruct (is_conf c). Qed.

Lemma run_conf_length_from T cs :
  ∀ s s', run T cs s = (Ok tt, s') →
          length (conf s') = (length (conf s) + count_conf cs)%nat.
Proof.
  induction cs as [|c cs IH]; intros s s' Hrun.
  - injection Hrun as <-. unfold count_conf. simpl. lia.
  - apply run_cons in Hrun as (s1 & Hc & Hrun).
    rewrite (IH _ _ Hrun), count_conf_cons.
    destruct c as [i it|i it|i it]; simpl in *.
    + pose proof (add_artwork_item_keeps conf i it (fun _ _ => eq_refl) s)
        as H.
      rewrite Hc in H. simpl in H. rewrite H. lia.
    + destruct (legacy_record s i it) as [record|e] eqn:Hrec.
      * rewrite (add_conf_item_run _ _ _ _ Hrec) in Hc. injection Hc as <-.
        cbn [conf with_hv_id with_conf]. rewrite length_app. simpl. lia.
      * by rewrite (add_conf_item_raise _ _ _ _ Hrec) in Hc.
    + pose proof (add_physical_item_keeps conf (fun _ _ => eq_refl)
                    (fun _ _ => eq_refl) T i it s) as H.
      rewrite Hc in H. simpl in H. rewrite H. lia.
Qed.

(** X22: in a conversion that ends without an exception there are as
    many configuration blocks as calls of [add_conf_item], and once
    there is one, [hv_id] is that number less one. *)
Theorem run_conf_length T cs secs top s :
  run T cs (init secs top) = (Ok tt, s) →
  length (conf s) = count_conf cs
  ∧ (count_conf cs ≠ 0%nat → hv_id s = Z.of_nat (count_conf cs) - 1).
Proof.
  intros Hrun.
  pose proof (run_conf_length_from _ _ _ _ Hrun) as Hlen. simpl in Hlen.
  split; [done|]. intros Hpos.
  apply run_cursor_ok in Hrun. unfold cursor_ok in Hrun. lia.
Qed.

Lemma run_conf_length_witness :
  length (conf sample_run.2) = 1%nat
  ∧ (1%nat ≠ 0%nat → hv_id sample_run.2 = Z.of_nat 1 - 1).
Proof.
  apply (run_conf_length sample_transform
           [AddConfItem "R1" "3600"; AddPhysicalItem "R1" "ROUTER R1";
            AddPhysicalItem "R1" "ROUTER R2";
            AddArtworkItem "GNS3-DATA" "NOTE 1"]
           [] sample_top sample_run.2).
  vm_compute. reflexivity.
Defined.

(** ** get_topology, further *)

(** X23: when [get_topology] returns, the keys of the inner dictionary
    come in the order links, nodes, servers, notes, ellipses,
    rectangles, images, with the keys of the sources that are [None]
    left out. *)
Theorem get_topology_key_order self d e r :
  _shapes self = PDict d →
  get "ellipse" d = Some e →
  get "rectangle" d = Some r →
  ∃ inner,
    get_topology self
    = Ok (PDict
            [("name", _name self); ("resources_type", PStr "local");
             ("topology", PDict inner); ("type", PStr "topology");
             ("version", PStr "1.0")])
    ∧ keys inner
      = present
          [("links", _links self); ("nodes", _nodes self);
           ("servers", _servers self); ("notes", _notes self);
           ("ellipses", e); ("rectangles", r); ("images", _images self)].
Proof.
  intros Hshapes He Hr.
  rewrite get_topology_run, Hshapes. simpl subscript. unfold getitem.
  rewrite He, Hr. cbn [mbind result_bind mret result_ret].
  eexists. split; [reflexivity|].
  unfold put, present. simpl.
  destruct (is_none (_links self)), (is_none (_nodes self)),
    (is_none (_servers self)), (is_none (_notes self)),
    (is_none e), (is_none r), (is_none (_images self)); reflexivity.
Qed.

Lemma get_topology_key_order_witness :
  ∃ inner,
    get_topology empty_shapes
    = Ok (PDict
            [("name", PNone); ("resources_type", PStr "local");
             ("topology", PDict inner); ("type", PStr "topology");
             ("version", PStr "1.0")])
    ∧ keys inner
      = present
          [("links", PNone); ("nodes", PNone);
           ("servers", default_servers); ("notes", PNone);
           ("ellipses", PList []); ("rectangles", PList []);
           ("images", PNone)].
Proof.
  apply (get_topology_key_order empty_shapes
           [("ellipse", PList []); ("rectangle", PList [])]
           (PList []) (PList []) eq_refl eq_refl eq_refl).
Defined.

(** X24: [get_topology] raises [TypeError] when [shapes] is anything but
    a dictionary (a list, as the docstring of the setter has it,
    included), and [KeyError] when it is a dictionary without the key
    ['ellipse'] or without the key ['rectangle']. *)
Theorem get_topology_shapes_errors self :
  ((∀ d, _shapes self ≠ PDict d) → get_topology self = Raise TypeError)
  ∧ (∀ d, _shapes self = PDict d →
       get "ellipse" d = None ∨ get "rectangle" d = None →
       get_topology self = Raise KeyError).
Proof.
  rewrite get_topology_run. split.
  - intros Hnot. destruct (_shapes self) as [| | | | |d]; try done.
    by destruct (Hnot d).
  - intros d -> Hmissing. simpl. unfold getitem.
    destruct (get "ellipse" d); [|done]. cbn [mbind result_bind].
    destruct Hmissing as [?| ->]; done.
Qed.

Lemma get_topology_shapes_errors_witness :
  get_topology list_shapes = Raise TypeError.
Proof.
  apply (proj1 (get_topology_shapes_errors list_shapes)).
  intros d H. discriminate H.
Defined.
